(** * Smart Finance Portfolio Tracker: the holdings store and the valuation
      code of [finance.py], embedded and verified.

    Numbers are the program's own: prices are IEEE-754 binary64 values (Python
    [float], pandas [float64]), modelled by Rocq's primitive [float];
    quantities are Python [int]s, modelled by [Z].  A Python dictionary holding
    one purchase lot becomes the record [Holding]; the Streamlit session and
    the page's query parameters become the record [app_state]; a call that
    raises answers [None], or the text of the exception where the program
    shows it.  The text of the saved portfolio is the one [json.dumps]
    writes, character by character. *)

From Stdlib Require Import Floats ZArith.
From Stdlib Require Uint63.
From Stdlib Require Import Ascii DecimalString DecimalZ DecimalPos.
From stdpp Require Import base option list strings gmap sorting.

Local Open Scope Z_scope.

(** ** Data model *)

(** One purchase lot: the dictionary built by the "Add to Portfolio" handler
    and stored in [st.session_state.portfolio]. [buy_date] is already the
    [%Y-%m-%d] text produced by [strftime]. *)
Record Holding := mkHolding {
  symbol : string;
  name : string;
  quantity : Z;
  buy_price : float;
  buy_date : string;
  current_price : float;
  exchange : string
}.

(** [updated_holding = holding.copy(); updated_holding['current_price'] = p] *)
Definition set_current_price (h : Holding) (p : float) : Holding :=
  {| symbol := symbol h; name := name h; quantity := quantity h;
     buy_price := buy_price h; buy_date := buy_date h;
     current_price := p; exchange := exchange h |}.

(** What the page shows after a handler ran: [st.success], [st.error],
    [st.warning]. *)
Inductive message :=
  | Success (text : string)
  | Error (text : string)
  | Warning (text : string).

(** The part of the Streamlit state the holdings live in:
    [st.session_state.portfolio] (absent in a session that has not been
    initialised) and the page's query parameters, a dictionary from a key to
    the list of its values. *)
Record app_state := mkState {
  ss_portfolio : option (list Holding);
  query_params : gmap string (list string)
}.

(** The portfolio a handler reads: [st.session_state.portfolio], which the
    initialisation at the top of the script always sets. *)
Definition portfolio_of (st : app_state) : list Holding :=
  default [] (ss_portfolio st).

(** Conversion of an integer to binary64, rounding to nearest even: the cast
    numpy applies to the entries of an [int64] column that meets a [float64]
    column.  It is the page's conversion for the quantities such a column can
    hold, [- 2 ^ 63 <= z < 2 ^ 63]; for these it is the machine's conversion
    [of_uint63] up to sign, and exact below [2 ^ 53] (section "Derived
    metrics" of the verification).  A column of larger integers is of
    another kind, or is not built at all: see [pd_DataFrame]. *)
Definition float_of_int (z : Z) : float :=
  SF2Prim (binary_normalize prec emax z 0 false).

(** The integer a binary64 number is, when it is one. *)
Definition int_of_float (x : float) : option Z :=
  match Prim2SF x with
  | S754_zero _ => Some 0
  | S754_finite s m e =>
      let magnitude :=
        if decide (0 ≤ e) then Some (Z.pos m * 2 ^ e)
        else if decide (Z.pos m `mod` 2 ^ (- e) = 0)
             then Some (Z.pos m `div` 2 ^ (- e)) else None in
      (λ v, if s then - v else v) <$> magnitude
  | _ => None
  end.

(** ** Local storage functions

    [json.dumps] and [json.loads] belong to Python's library, not to this
    program: the handlers take them as parameters.  [json_loads] answers
    [None] where the library raises.  What the library does with a list of
    holdings is written out further down, as [dumps] and [loads]. *)
Section Storage.

Variable json_dumps : list Holding -> string.
Variable json_loads : string -> option (list Holding).

(** [load_portfolio]: the session's list when there is one, else the list
    decoded from the first value of the query parameter [portfolio], else
    the empty list; every exception (no first value, undecodable text) ends
    in the empty list.

    Line 24 returns what [json.loads] yields, unchecked.  [json_loads text]
    is that value when it is a list of holdings, and [None] when the library
    raises.  A text that decodes to anything else ([5], [{}], [[1]]) is
    outside this model: the code would put that value into the session, where
    the page raises as soon as it uses it, and [app_state] has no such
    session. *)
Definition load_portfolio (st : app_state) : list Holding :=
  match ss_portfolio st with
  | Some p => p
  | None =>
      match query_params st !! "portfolio"%string with
      | Some values =>
          match values !! 0%nat with
          | Some text =>
              match json_loads text with
              | Some p => p
              | None => []
              end
          | None => []
          end
      | None => []
      end
  end.

(** [save_portfolio]: stores the list in the session and replaces the
    query parameters by the single parameter [portfolio], whose value is the
    encoded list. *)
Definition save_portfolio (portfolio : list Holding) (st : app_state)
  : app_state :=
  {| ss_portfolio := Some portfolio;
     query_params := {[ "portfolio"%string := [json_dumps portfolio] ]} |}.

(** Initialisation of the session at the top of the script:
    [if 'portfolio' not in st.session_state:
       st.session_state.portfolio = load_portfolio()]. *)
Definition init_session (st : app_state) : app_state :=
  match ss_portfolio st with
  | Some _ => st
  | None => {| ss_portfolio := Some (load_portfolio st);
               query_params := query_params st |}
  end.

(** A session opened on the address another session left behind: the
    query parameters survive, the session state does not. *)
Definition reopen (st : app_state) : app_state :=
  {| ss_portfolio := None; query_params := query_params st |}.

(** ** The "Add to Portfolio" handler

    The arguments are the values the handler reads: the ticker symbol, name
    and exchange it cuts out of the selected option, the two number inputs,
    the formatted purchase date and the previewed price.  [not ticker_symbol]
    is true of the empty string only. *)
Definition add_to_portfolio (ticker_symbol name_ exchange_ : string)
    (quantity_ : Z) (buy_price_ : float) (buy_date_ : string)
    (current_price_ : float) (st : app_state)
  : app_state * list message :=
  if decide (ticker_symbol = ""%string) then
    (st, [Error "Please select a valid stock"])
  else
    let new_portfolio :=
      portfolio_of st ++
        [ {| symbol := ticker_symbol; name := name_;
             quantity := quantity_; buy_price := buy_price_;
             buy_date := buy_date_; current_price := current_price_;
             exchange := exchange_ |} ] in
    (save_portfolio new_portfolio st,
     [Success ("Added " +:+ ticker_symbol +:+ " to portfolio!")]).

(** ** The price refresh loop

    [yf_history sym] is [yf.Ticker(sym).history(period="1d")['Close']]:
    the closing prices of the period, or [None] when the call raises. *)
Section Refresh.

Variable yf_history : string -> option (list float).

(** [ticker.history(period="1d")['Close'].iloc[-1]]: the last close;
    [.iloc[-1]] raises on an empty series. *)
Definition price_lookup (sym : string) : option float :=
  yf_history sym ≫= last.

(** One turn of the loop: the body of [for holding in ...], appending to
    [new_portfolio]. *)
Definition refresh_step (new_portfolio : list Holding) (holding : Holding)
  : list Holding :=
  match price_lookup (symbol holding) with
  | Some p => new_portfolio ++ [set_current_price holding p]
  | None => new_portfolio ++ [holding]
  end.

(** What one turn appends for [holding]. *)
Definition refreshed (holding : Holding) : Holding :=
  match price_lookup (symbol holding) with
  | Some p => set_current_price holding p
  | None => holding
  end.

(** The refresh runs under [if st.session_state.portfolio:], for a portfolio
    that is not empty.  The inner [try] catches every failure of a lookup;
    nothing else in the loop can raise, so the outer [except] and its warning
    are never reached. *)
Definition refresh_prices (st : app_state) : app_state :=
  match portfolio_of st with
  | [] => st
  | _ =>
      let new_portfolio := foldl refresh_step [] (portfolio_of st) in
      save_portfolio new_portfolio
        {| ss_portfolio := Some new_portfolio;
           query_params := query_params st |}
  end.

End Refresh.

(** ** The "Remove Selected Stock" handler

    [selected_index] is [int(delete_index.split(".")[0]) - 1], a Python
    [int]. *)

(** [[item for i, item in enumerate(l) if i != selected_index]] *)
Definition remove_index (selected_index : Z) (l : list Holding)
  : list Holding :=
  snd <$> filter (λ p : nat * Holding, Z.of_nat p.1 ≠ selected_index)
                 (imap pair l).

(** The handler: one [if] on the index, with no [else].  Under the guard
    [st.session_state.portfolio[selected_index]] always finds its element;
    the [None] case below is there for totality only. *)
Definition remove_selected_stock (selected_index : Z) (st : app_state)
  : app_state * list message :=
  if decide (0 ≤ selected_index < Z.of_nat (length (portfolio_of st))) then
    match portfolio_of st !! Z.to_nat selected_index with
    | Some removed_stock =>
        (save_portfolio (remove_index selected_index (portfolio_of st)) st,
         [Success ("Removed " +:+ symbol removed_stock
                     +:+ " from portfolio!")])
    | None => (st, [])
    end
  else (st, []).

End Storage.

(** ** Derived metrics

    [pd.DataFrame(st.session_state.portfolio)]: one column per key, one entry
    per holding, in the order of the list.  The column of quantities is
    pandas' [int64] column: [DataFrame_of] is the frame of a portfolio whose
    quantities all fit it, and [pd_DataFrame] below is the constructor with
    its other outcomes. *)
Record DataFrame := mkFrame {
  col_symbol : list string;
  col_name : list string;
  col_quantity : list Z;
  col_buy_price : list float;
  col_buy_date : list string;
  col_current_price : list float;
  col_exchange : list string
}.

Definition DataFrame_of (portfolio : list Holding) : DataFrame :=
  {| col_symbol := symbol <$> portfolio;
     col_name := name <$> portfolio;
     col_quantity := quantity <$> portfolio;
     col_buy_price := buy_price <$> portfolio;
     col_buy_date := buy_date <$> portfolio;
     col_current_price := current_price <$> portfolio;
     col_exchange := exchange <$> portfolio |}.

(** Element-wise arithmetic of two columns over the same index.  pandas
    follows IEEE-754 here: a zero divisor raises nothing, the quotient is an
    infinity or NaN. *)
Definition series_mul_int (qs : list Z) (ps : list float) : list float :=
  zip_with (λ q p, float_of_int q * p)%float qs ps.

Definition series_sub (xs ys : list float) : list float :=
  zip_with PrimFloat.sub xs ys.

Definition series_div (xs ys : list float) : list float :=
  zip_with PrimFloat.div xs ys.

Definition series_scale (xs : list float) (c : float) : list float :=
  (λ x, x * c)%float <$> xs.

(** The frame after the four assignments of "Calculate metrics". *)
Record MetricsFrame := mkMetrics {
  base : DataFrame;
  col_investment : list float;
  col_current_value : list float;
  col_pnl : list float;
  col_pnl_pct : list float
}.

Definition calculate_metrics (portfolio_df : DataFrame) : MetricsFrame :=
  let investment :=
    series_mul_int (col_quantity portfolio_df) (col_buy_price portfolio_df) in
  let current_value :=
    series_mul_int (col_quantity portfolio_df)
                   (col_current_price portfolio_df) in
  let pnl := series_sub current_value investment in
  let pnl_pct := series_scale (series_div pnl investment) 100%float in
  {| base := portfolio_df; col_investment := investment;
     col_current_value := current_value; col_pnl := pnl;
     col_pnl_pct := pnl_pct |}.

Record DerivedRow := mkRow {
  investment : float;
  current_value : float;
  pnl : float;
  pnl_pct : float
}.

(** Row [i] of the metrics frame ([.iloc[i]] restricted to the four derived
    columns); [None] past the end. *)
Definition iloc (m : MetricsFrame) (i : nat) : option DerivedRow :=
  inv ← col_investment m !! i;
  cv ← col_current_value m !! i;
  p ← col_pnl m !! i;
  pct ← col_pnl_pct m !! i;
  Some {| investment := inv; current_value := cv; pnl := p; pnl_pct := pct |}.

(** The derived rows of a portfolio whose quantities fit [int64], first to
    last; [derived_rows] below starts from [pd_DataFrame] and has the other
    outcomes. *)
Definition compute_rows (portfolio : list Holding) : list DerivedRow :=
  let m := calculate_metrics (DataFrame_of portfolio) in
  omap (iloc m) (seq 0 (length portfolio)).

(** The quantities an [int64] column holds. *)
Definition int64 (z : Z) : Prop := - 2 ^ 63 ≤ z < 2 ^ 63.

#[global] Instance int64_dec (z : Z) : Decision (int64 z).
Proof. unfold int64. apply _. Defined.

(** An integer of magnitude 2^1024 or more, beyond every binary64 number:
    converting it to [float] raises [OverflowError]. *)
Definition beyond_binary64 (z : Z) : Prop := 2 ^ 1024 ≤ Z.abs z.

#[global] Instance beyond_binary64_dec (z : Z) : Decision (beyond_binary64 z).
Proof. unfold beyond_binary64. apply _. Defined.

(** How building the frame and the metrics ends.  [Built]: the quantities
    are an [int64] column and the code runs to its end.  [OverflowError]:
    [pd.DataFrame] raises, the script stops there and shows no table.
    [OtherColumn]: the quantities leave [int64] without the first that does
    being out of binary64's range; pandas then goes on with a column of
    another kind ([uint64], or Python objects) or raises further on, and this
    development does not follow the page there. *)
Inductive outcome (A : Type) :=
  | Built (a : A)
  | OverflowError
  | OtherColumn.

Arguments Built {A} a.
Arguments OverflowError {A}.
Arguments OtherColumn {A}.

Definition outcome_map {A B : Type} (f : A → B) (o : outcome A) : outcome B :=
  match o with
  | Built a => Built (f a)
  | OverflowError => OverflowError
  | OtherColumn => OtherColumn
  end.

(** [pd.DataFrame(portfolio)].  pandas reads the quantities first to last,
    converting each to binary64 on the way.  While they fit [int64] the
    column stays [int64]; at the first that does not, the conversion raises
    when the integer is beyond binary64, and otherwise the column leaves
    [int64]. *)
Definition pd_DataFrame (portfolio : list Holding) : outcome DataFrame :=
  match list_find (λ h, ¬ int64 (quantity h)) portfolio with
  | None => Built (DataFrame_of portfolio)
  | Some (_, h) =>
      if decide (beyond_binary64 (quantity h)) then OverflowError
      else OtherColumn
  end.

(** The rows of a metrics frame, first to last. *)
Definition frame_rows (m : MetricsFrame) : list DerivedRow :=
  omap (iloc m) (seq 0 (length (col_quantity (base m)))).

(** Lines 255 to 261 for a portfolio: the frame is built, then the four
    columns are computed. *)
Definition derived_rows (portfolio : list Holding)
  : outcome (list DerivedRow) :=
  outcome_map (λ portfolio_df, frame_rows (calculate_metrics portfolio_df))
              (pd_DataFrame portfolio).

(** The formulas of the specification for one holding, to compare
    [compute_rows] with. *)
Definition spec_derived_row (h : Holding) : DerivedRow :=
  let inv := (float_of_int (quantity h) * buy_price h)%float in
  let cv := (float_of_int (quantity h) * current_price h)%float in
  let p := (cv - inv)%float in
  {| investment := inv; current_value := cv; pnl := p;
     pnl_pct := (p / inv * 100)%float |}.

(** ** Portfolio totals *)

(** Modelled from the spec: the result of [aggregate], section 4.2. *)
Record Totals := mkTotals {
  total_investment : float;
  total_current_value : float;
  total_pnl : float;
  total_pnl_pct : float
}.

(** Modelled from the spec: "sums across rows", a sum from 0, first row
    first. *)
Definition fsum (xs : list float) : float := foldl PrimFloat.add 0%float xs.

(** Modelled from the spec: [aggregate], the portfolio totals of section 4.2,
    which [finance.py] does not compute.  The definition follows the spec's
    words: sums across rows, [total_pnl_pct = total_pnl / total_investment *
    100], defined as 0 when [total_investment] is 0. *)
Definition aggregate (rows : list DerivedRow) : Totals :=
  let ti := fsum (investment <$> rows) in
  let tcv := fsum (current_value <$> rows) in
  let tp := fsum (pnl <$> rows) in
  {| total_investment := ti; total_current_value := tcv; total_pnl := tp;
     total_pnl_pct := if is_zero ti then 0%float else (tp / ti * 100)%float |}.

(** ** Historical price

    Dates are day numbers.  A price table is a list of sessions, one
    [(day, Close)] pair per trading day, as [yf.download] returns it. *)
Definition session := (Z * float)%type.

Section Historical.

(** [yf.download(ticker, start=, end=, interval="1d")]: the sessions, or the
    text of the exception raised. *)
Variable yf_download : string -> Z -> Z -> string + list session.

Definition get_historical_price (ticker : string) (date : Z)
  : option float * list message :=
  let end_date := date + 1 in
  match yf_download ticker (date - 7) end_date with
  | inr data =>
      match data with
      | [] => (None, [])
      | _ =>
          let data := filter (λ s : session, s.1 ≤ date) data in
          match last data with
          | Some s => (Some s.2, [])
          | None => (None, [])
          end
      end
  | inl e => (None, [Error ("Price fetch error: " +:+ e)])
  end.

End Historical.

(** A provider that answers from a price history: the sessions from [start]
    on and before [end_], in the order of the history. *)
Definition download_from (history : list session) (_ : string)
    (start end_ : Z) : string + list session :=
  inr (filter (λ s : session, start ≤ s.1 < end_) history).

(** Chronological order of a price history. *)
Definition chronological (history : list session) : Prop :=
  StronglySorted (λ a b : session, a.1 ≤ b.1) history.

(** ** Ticker search *)
Record Recommendation := mkRec {
  rec_symbol : string;
  rec_name : string;
  rec_exchange : string
}.

(** One entry of the provider's [quotes] list: a JSON object, of which the
    text fields [symbol], [shortname], [longname] and [exchange] are read. *)
Abbreviation quote := (gmap string string).

Section Search.

(** [requests.get(url).json()]: the decoded answer, an object whose key
    [quotes] holds the list of quotes, or the text of the exception. *)
Variable yahoo_search : string -> string + gmap string (list quote).

Definition recommendation_of (q : quote) : Recommendation :=
  let symbol := default ""%string (q !! "symbol"%string) in
  let name :=
    default (default ""%string (q !! "longname"%string))
            (q !! "shortname"%string) in
  let exchange := default "Unknown"%string (q !! "exchange"%string) in
  let symbol :=
    if decide (exchange = "NSE"%string) then symbol
    else if decide (exchange ∈ ["BSE"%string; "BOM"%string]) then symbol
    else symbol in
  {| rec_symbol := symbol; rec_name := name; rec_exchange := exchange |}.

Definition get_ticker_recommendations (query : string)
  : list Recommendation * list message :=
  match yahoo_search query with
  | inr data =>
      (recommendation_of <$> take 8 (default [] (data !! "quotes"%string)),
       [])
  | inl e => ([], [Error ("Search error: " +:+ e)])
  end.

End Search.

(** ** The "Clear Entire Portfolio" handler

    The button is drawn under [if st.session_state.portfolio:], so it can be
    pressed for a portfolio that is not empty only. *)
Definition clear_portfolio (json_dumps : list Holding -> string)
    (st : app_state) : app_state * list message :=
  match portfolio_of st with
  | [] => (st, [])
  | _ => (save_portfolio json_dumps [] st,
          [Success "Portfolio cleared successfully!"])
  end.

(** ** The page as a machine

    What a visitor can make the script do to the holdings: press one of the
    three buttons, or load the page, which refreshes the prices from the
    market of that moment. *)
Inductive action :=
  | Add (ticker_symbol name_ exchange_ : string) (quantity_ : Z)
        (buy_price_ : float) (buy_date_ : string) (current_price_ : float)
  | Remove (selected_index : Z)
  | Refresh (yf_history : string -> option (list float))
  | Clear.

Definition step (json_dumps : list Holding -> string) (st : app_state)
    (a : action) : app_state :=
  match a with
  | Add ticker_symbol name_ exchange_ quantity_ buy_price_ buy_date_
        current_price_ =>
      (add_to_portfolio json_dumps ticker_symbol name_ exchange_ quantity_
                        buy_price_ buy_date_ current_price_ st).1
  | Remove selected_index =>
      (remove_selected_stock json_dumps selected_index st).1
  | Refresh yf_history => refresh_prices json_dumps yf_history st
  | Clear => (clear_portfolio json_dumps st).1
  end.

Definition run (json_dumps : list Holding -> string) (st : app_state)
    (actions : list action) : app_state :=
  foldl (step json_dumps) st actions.

(** The session and the address agree: the query parameters are exactly the
    parameter [portfolio] holding the encoding of the session's list. *)
Definition in_sync (json_dumps : list Holding -> string) (st : app_state)
  : Prop :=
  ∃ portfolio, ss_portfolio st = Some portfolio
    ∧ query_params st = {[ "portfolio"%string := [json_dumps portfolio] ]}.

(** "Your Portfolio", lines 234 to 261: for a portfolio that is not empty
    the frame is built a first time (line 235), the prices are refreshed, the
    frame is built again from the session's list (line 255) and the metrics
    are computed.  The result is the state after the refresh and the rows of
    the table; an empty portfolio has no table. *)
Definition portfolio_display (json_dumps : list Holding -> string)
    (yf_history : string -> option (list float)) (st : app_state)
  : outcome (app_state * list DerivedRow) :=
  match portfolio_of st with
  | [] => Built (st, [])
  | _ =>
      match pd_DataFrame (portfolio_of st) with
      | Built _ =>
          let st' := refresh_prices json_dumps yf_history st in
          outcome_map
            (λ portfolio_df, (st', frame_rows (calculate_metrics portfolio_df)))
            (pd_DataFrame (portfolio_of st'))
      | OverflowError => OverflowError
      | OtherColumn => OtherColumn
      end
  end.

(** ** Python text operations

    A text is a sequence of characters; [String.length] is [len]. *)

(** [s.split(sep)] for a separator that is not empty: the pieces between the
    occurrences of [sep], found from the left and not overlapping.  [skip]
    counts the characters of a found separator still to pass over, [cur] is
    the piece being read. *)
Fixpoint split_go (sep : string) (skip : nat) (cur s : string)
  : list string :=
  match s with
  | EmptyString => [cur]
  | String c s' =>
      match skip with
      | S k => split_go sep k cur s'
      | O =>
          if String.prefix sep s
          then cur :: split_go sep (String.length sep - 1) "" s'
          else split_go sep 0 (cur +:+ String c "") s'
      end
  end.

Definition split (sep s : string) : list string := split_go sep 0 "" s.

(** [s.replace(old, new)] for an [old] that is not empty: the pieces between
    the occurrences of [old], joined by [new]. *)
Definition replace (old new s : string) : string :=
  String.concat new (split old s).

(** [c in s] for a character [c]. *)
Fixpoint occurs (c : ascii) (s : string) : bool :=
  match s with
  | EmptyString => false
  | String d s' => if decide (c = d) then true else occurs c s'
  end.

Definition starts_with (d : ascii) (s : string) : bool :=
  match s with
  | String x _ => bool_decide (x = d)
  | EmptyString => false
  end.

(** [str(z)] and [f"{z}"] for an [int]. *)
Definition str_of_int (z : Z) : string :=
  NilZero.string_of_int (Z.to_int z).

(** [int(s)] for a text of decimal digits with an optional minus sign.
    Python's [int] also reads a plus sign, blanks around the number and
    underscores between digits; for those texts, and for the texts on which
    Python raises [ValueError], this function answers [None]. *)
Definition int_of_text (s : string) : option Z :=
  Z.of_int <$> NilZero.int_of_string s.

(** ** The JSON text of the holdings

    [json.dumps] and [json.loads] belong to Python's library; lines 24 and 32
    call them with their default arguments.  This section writes out what
    they do with a list of holdings: the text [json.dumps] produces for it,
    and the list [json.loads] returns for a text that is an array of
    holdings.  A character of a text is one [ascii], a code point below
    256. *)

(** The values in the dictionary of a holding: a text, an [int], a
    [float]. *)
Inductive scalar :=
  | JString (s : string)
  | JInt (z : Z)
  | JFloat (x : float).

(** *** Numbers

    The decimal digits. *)
Definition is_digit (c : ascii) : bool :=
  (48 <=? nat_of_ascii c)%nat && (nat_of_ascii c <=? 57)%nat.

(** The digits at the head of [s], and what follows them. *)
Fixpoint span_digits (s : string) : string * string :=
  match s with
  | String c r =>
      if is_digit c then
        let '(d, rest) := span_digits r in (String c d, rest)
      else (EmptyString, s)
  | EmptyString => (EmptyString, EmptyString)
  end.

(** The number a text of digits writes. *)
Definition digits_value (d : string) : option Z :=
  Z.of_uint <$> NilEmpty.uint_of_string d.

(** [float(text)] for the decimal [D * 10 ^ E]: the binary64 number nearest
    to it, ties to even, an infinity beyond the range.  The quotient is taken
    with 1080 fractional bits, more than any binary64 number has, and rounded
    with the location of the remainder. *)
Definition float_of_decimal (neg : bool) (D E : Z) : float :=
  let N := D * 10 ^ Z.max E 0 * 2 ^ 1080 in
  let M := 10 ^ Z.max (- E) 0 in
  let l :=
    if decide (N `mod` M = 0) then loc_Exact
    else loc_Inexact (2 * (N `mod` M) ?= M) in
  SF2Prim (binary_round_aux prec emax neg (N `div` M) (- 1080) l).

(** An integer part [0] followed by more digits, which JSON excludes. *)
Definition leading_zero (ip : string) : bool :=
  match ip with
  | String "0" (String _ _) => true
  | _ => false
  end.

(** The number a token writes, by JSON's grammar: an optional minus sign,
    an integer part without a leading zero, an optional fraction (a point and
    digits) and an optional exponent ([e] or [E], an optional sign, digits).
    It is an [int] when it has neither fraction nor exponent, else a
    [float]. *)
Definition number_of_token (tok : string) : option scalar :=
  let '(neg, s1) :=
    match tok with
    | String "-" r => (true, r)
    | _ => (false, tok)
    end in
  let '(ip, s2) := span_digits s1 in
  let '(fp, s3) :=
    match s2 with
    | String "." r => let '(f, r') := span_digits r in (Some f, r')
    | _ => (None, s2)
    end in
  let '(ep, s4) :=
    match s3 with
    | String c r =>
        if bool_decide (c = "e"%char ∨ c = "E"%char) then
          let '(eneg, r1) :=
            match r with
            | String "-" r' => (true, r')
            | String "+" r' => (false, r')
            | _ => (false, r)
            end in
          let '(ed, r2) := span_digits r1 in (Some (eneg, ed), r2)
        else (None, s3)
    | EmptyString => (None, s3)
    end in
  if bool_decide (ip = EmptyString) || leading_zero ip
     || bool_decide (fp = Some EmptyString)
     || bool_decide (snd <$> ep = Some EmptyString)
     || negb (bool_decide (s4 = EmptyString))
  then None
  else
    match fp, ep with
    | None, None =>
        D ← digits_value ip; Some (JInt (if neg then - D else D))
    | _, _ =>
        D ← digits_value (ip +:+ default EmptyString fp);
        E ← match ep with
            | Some (eneg, ed) =>
                (λ v, if eneg then - v else v) <$> digits_value ed
            | None => Some 0
            end;
        Some (JFloat (float_of_decimal neg D
                        (E - Z.of_nat (String.length (default EmptyString fp)))))
    end.

(** Two binary64 numbers are the same number, sign of zero included. *)
Definition same_float (x y : float) : bool :=
  match Prim2SF x, Prim2SF y with
  | S754_zero s, S754_zero s' => bool_decide (s = s')
  | S754_infinity s, S754_infinity s' => bool_decide (s = s')
  | S754_nan, S754_nan => true
  | S754_finite s m e, S754_finite s' m' e' =>
      bool_decide (s = s' ∧ m = m' ∧ e = e')
  | _, _ => false
  end.

(** The number of zeros between the point and the first digit of the
    fraction [vn / vd < 1]. *)
Fixpoint leading_zeros (fuel : nat) (vn vd : Z) : nat :=
  match fuel with
  | O => O
  | S fuel' =>
      if decide (vd ≤ vn * 10) then O
      else S (leading_zeros fuel' (vn * 10) vd)
  end.

(** The position of the decimal point of [vn / vd > 0]: the [k] with
    [10 ^ (k - 1) <= vn / vd < 10 ^ k]. *)
Definition decimal_point (vn vd : Z) : Z :=
  if decide (vd ≤ vn) then Z.of_nat (String.length (str_of_int (vn `div` vd)))
  else - Z.of_nat (leading_zeros 400 vn vd).

(** [c] without its trailing zeros. *)
Fixpoint strip_zeros (fuel : nat) (c : Z) : Z :=
  match fuel with
  | O => c
  | S fuel' =>
      if decide (c ≠ 0 ∧ c `mod` 10 = 0) then strip_zeros fuel' (c `div` 10)
      else c
  end.

(** ["0" * n] *)
Fixpoint zeros (n : nat) : string :=
  match n with
  | O => EmptyString
  | S n' => String "0" (zeros n')
  end.

(** [s[:n]] and [s[n:]] *)
Fixpoint str_take (n : nat) (s : string) : string :=
  match n, s with
  | S n', String c r => String c (str_take n' r)
  | _, _ => EmptyString
  end.

Fixpoint str_drop (n : nat) (s : string) : string :=
  match n, s with
  | S n', String _ r => str_drop n' r
  | _, _ => s
  end.

(** [float.__repr__] lays out the digits [ds] of a number [0.ds * 10^decpt]:
    with an exponent when [decpt <= -4] or [decpt > 16], and otherwise in
    positional notation with at least one digit after the point. *)
Definition float_layout (neg : bool) (ds : string) (decpt : Z) : string :=
  let n := Z.of_nat (String.length ds) in
  let body :=
    if bool_decide (decpt ≤ - 4 ∨ 16 < decpt) then
      let e := decpt - 1 in
      str_take 1 ds
      +:+ (if bool_decide (1 < n) then "." +:+ str_drop 1 ds else EmptyString)
      +:+ "e" +:+ (if bool_decide (e < 0) then "-" else "+")
      +:+ (if bool_decide (Z.abs e < 10) then "0" else EmptyString)
      +:+ str_of_int (Z.abs e)
    else if bool_decide (decpt ≤ 0) then
      "0." +:+ zeros (Z.to_nat (- decpt)) +:+ ds
    else if bool_decide (decpt < n) then
      str_take (Z.to_nat decpt) ds +:+ "." +:+ str_drop (Z.to_nat decpt) ds
    else ds +:+ zeros (Z.to_nat (decpt - n)) +:+ ".0" in
  if neg then "-" +:+ body else body.

(** The text of the decimal [c * 10 ^ e], [c > 0]. *)
Definition decimal_text (neg : bool) (c e : Z) : string :=
  let decpt := Z.of_nat (String.length (str_of_int c)) + e in
  float_layout neg (str_of_int (strip_zeros 400 c)) decpt.

(** The decimals of [n] digits next to [vn / vd] on either side, the nearer
    first; [k] is the position of the decimal point of [vn / vd]. *)
Definition candidates (neg : bool) (vn vd k : Z) (n : nat) : list string :=
  let num := vn * 10 ^ Z.max (Z.of_nat n - k) 0 in
  let den := vd * 10 ^ Z.max (k - Z.of_nat n) 0 in
  let lo := num `div` den in
  let e := k - Z.of_nat n in
  if decide (num `mod` den = 0) then [decimal_text neg lo e]
  else
    match 2 * num ?= (2 * lo + 1) * den with
    | Lt => [decimal_text neg lo e; decimal_text neg (lo + 1) e]
    | Gt => [decimal_text neg (lo + 1) e; decimal_text neg lo e]
    | Eq => if Z.even lo
            then [decimal_text neg lo e; decimal_text neg (lo + 1) e]
            else [decimal_text neg (lo + 1) e; decimal_text neg lo e]
    end.

(** The exact decimal of [m * 2 ^ e], written with an exponent. *)
Definition exact_text (neg : bool) (m : positive) (e : Z) : string :=
  let D := if decide (0 ≤ e) then Z.pos m * 2 ^ e else Z.pos m * 5 ^ (- e) in
  (if neg then "-" else EmptyString)
  +:+ str_of_int D +:+ "e-" +:+ str_of_int (Z.max (- e) 0).

(** [float.__repr__]: for a finite number the shortest decimal text that
    reads back as the number and, of the shortest, the nearest to it.  For
    binary64 a text of 17 digits at most always reads back; that fact is not
    proved here, and [exact_text] completes the definition. *)
Definition float_repr (x : float) : string :=
  match Prim2SF x with
  | S754_zero s => if s then "-0.0" else "0.0"
  | S754_finite s m e =>
      let vn := Z.pos m * 2 ^ Z.max e 0 in
      let vd := 2 ^ Z.max (- e) 0 in
      let k := decimal_point vn vd in
      let reads_back t :=
        match number_of_token t with
        | Some (JFloat y) => same_float x y
        | _ => false
        end in
      match list_find (λ t, reads_back t = true)
                      (seq 1 17 ≫= candidates s vn vd k) with
      | Some (_, t) => t
      | None => exact_text s m e
      end
  | S754_infinity s => if s then "-inf" else "inf"
  | S754_nan => "nan"
  end.

(** The text [json.dumps] writes for a [float]: [float.__repr__], and
    [NaN], [Infinity], [-Infinity] for the numbers that are not finite. *)
Definition float_text (x : float) : string :=
  match Prim2SF x with
  | S754_nan => "NaN"
  | S754_infinity s => if s then "-Infinity" else "Infinity"
  | _ => float_repr x
  end.

(** *** Writing

    The double quote. *)
Definition dquote : ascii := "034".

(** A hexadecimal digit, in lower case. *)
Definition hex_digit (n : nat) : ascii :=
  ascii_of_nat (if decide (n < 10)%nat then 48 + n else 87 + n).

(** [json.dumps] writes a character of a text as itself when it is a
    printable ASCII character other than the quote and the backslash, and as
    an escape otherwise. *)
Definition escape_char (c : ascii) : string :=
  let n := nat_of_ascii c in
  if decide (n = 34)%nat then String "\" (String dquote EmptyString)
  else if decide (n = 92)%nat then "\\"
  else if decide (n = 10)%nat then "\n"
  else if decide (n = 13)%nat then "\r"
  else if decide (n = 9)%nat then "\t"
  else if decide (n = 8)%nat then "\b"
  else if decide (n = 12)%nat then "\f"
  else if decide (32 ≤ n ≤ 126)%nat then String c EmptyString
  else "\u00" +:+ String (hex_digit (n / 16)) (String (hex_digit (n mod 16))
                                                       EmptyString).

(** The text between the quotes of a JSON string. *)
Fixpoint escape (s : string) : string :=
  match s with
  | EmptyString => EmptyString
  | String c r => escape_char c +:+ escape r
  end.

Definition json_string (s : string) : string :=
  String dquote (escape s +:+ String dquote EmptyString).

(** The text of a value. *)
Definition scalar_text (v : scalar) : string :=
  match v with
  | JString s => json_string s
  | JInt z => str_of_int z
  | JFloat x => float_text x
  end.

(** A key and its value, and a dictionary: [json.dumps] separates key and
    value by a colon and a blank, and items by a comma and a blank. *)
Definition member_text (m : string * scalar) : string :=
  json_string m.1 +:+ ": " +:+ scalar_text m.2.

Definition object_text (ms : list (string * scalar)) : string :=
  "{" +:+ String.concat ", " (member_text <$> ms) +:+ "}".

(** The dictionary of a holding, keys in the order the add handler writes
    them. *)
Definition members_of (h : Holding) : list (string * scalar) :=
  [("symbol"%string, JString (symbol h));
   ("name"%string, JString (name h));
   ("quantity"%string, JInt (quantity h));
   ("buy_price"%string, JFloat (buy_price h));
   ("buy_date"%string, JString (buy_date h));
   ("current_price"%string, JFloat (current_price h));
   ("exchange"%string, JString (exchange h))].

(** [json.dumps(portfolio)] *)
Definition dumps (portfolio : list Holding) : string :=
  "[" +:+ String.concat ", " ((object_text ∘ members_of) <$> portfolio)
      +:+ "]".

(** *** Reading

    The blanks JSON allows between tokens: space, tab, line feed, carriage
    return. *)
Definition is_ws (c : ascii) : bool :=
  bool_decide (c = " "%char ∨ c = "009"%char ∨ c = "010"%char
               ∨ c = "013"%char).

Fixpoint skip_ws (s : string) : string :=
  match s with
  | String c r => if is_ws c then skip_ws r else s
  | EmptyString => EmptyString
  end.

(** The value of a hexadecimal digit, of either case. *)
Definition hex_value (c : ascii) : option nat :=
  let n := nat_of_ascii c in
  if decide (48 ≤ n ≤ 57)%nat then Some (n - 48)%nat
  else if decide (97 ≤ n ≤ 102)%nat then Some (n - 87)%nat
  else if decide (65 ≤ n ≤ 70)%nat then Some (n - 55)%nat
  else None.

(** The character of a two-character escape. *)
Definition unescape (e : ascii) : option ascii :=
  let n := nat_of_ascii e in
  if decide (n = 34 ∨ n = 92 ∨ n = 47)%nat then Some e
  else if decide (n = 98)%nat then Some "008"%char
  else if decide (n = 102)%nat then Some "012"%char
  else if decide (n = 110)%nat then Some "010"%char
  else if decide (n = 114)%nat then Some "013"%char
  else if decide (n = 116)%nat then Some "009"%char
  else None.

(** The text of a JSON string from behind its opening quote, and what
    follows the closing quote.  A control character written as itself is an
    error; an escape [\uXXXX] for a code point of 256 or more has no
    character in this development and ends in [None] as well. *)
Fixpoint scan_string (s : string) : option (string * string) :=
  match s with
  | EmptyString => None
  | String c r =>
      if decide (c = dquote) then Some (EmptyString, r)
      else if decide (c = "\"%char) then
        match r with
        | String e r' =>
            if decide (e = "u"%char) then
              match r' with
              | String h1 (String h2 (String h3 (String h4 r''))) =>
                  n1 ← hex_value h1; n2 ← hex_value h2;
                  n3 ← hex_value h3; n4 ← hex_value h4;
                  if decide (n1 = 0 ∧ n2 = 0)%nat then
                    match scan_string r'' with
                    | Some (t, rest) =>
                        Some (String (ascii_of_nat (16 * n3 + n4)) t, rest)
                    | None => None
                    end
                  else None
              | _ => None
              end
            else
              match unescape e, scan_string r' with
              | Some d, Some (t, rest) => Some (String d t, rest)
              | _, _ => None
              end
        | EmptyString => None
        end
      else if decide (nat_of_ascii c < 32)%nat then None
      else
        match scan_string r with
        | Some (t, rest) => Some (String c t, rest)
        | None => None
        end
  end.

(** The characters of a number, and the run of them at the head of [s]. *)
Definition is_number_char (c : ascii) : bool :=
  is_digit c
  || bool_decide (c = "-"%char ∨ c = "+"%char ∨ c = "."%char
                  ∨ c = "e"%char ∨ c = "E"%char).

Fixpoint span_number (s : string) : string * string :=
  match s with
  | String c r =>
      if is_number_char c then
        let '(d, rest) := span_number r in (String c d, rest)
      else (EmptyString, s)
  | EmptyString => (EmptyString, EmptyString)
  end.

(** [s] behind its prefix [p]. *)
Fixpoint strip_prefix (p s : string) : option string :=
  match p, s with
  | EmptyString, _ => Some s
  | String a p', String b s' =>
      if decide (a = b) then strip_prefix p' s' else None
  | _, _ => None
  end.

(** A string or a number at the head of [s]; where no number stands, one of
    the constants [NaN], [Infinity], [-Infinity].  Other values (nested
    arrays and dictionaries, [true], [false], [null]) are no field of a
    holding: [None]. *)
Definition scan_scalar (s : string) : option (scalar * string) :=
  match s with
  | EmptyString => None
  | String c r =>
      if decide (c = dquote) then
        match scan_string r with
        | Some (t, rest) => Some (JString t, rest)
        | None => None
        end
      else
        let '(tok, rest) := span_number s in
        match number_of_token tok with
        | Some v => Some (v, rest)
        | None =>
            match strip_prefix "NaN" s, strip_prefix "Infinity" s,
                  strip_prefix "-Infinity" s with
            | Some rest', _, _ => Some (JFloat nan, rest')
            | _, Some rest', _ => Some (JFloat infinity, rest')
            | _, _, Some rest' => Some (JFloat neg_infinity, rest')
            | _, _, _ => None
            end
        end
  end.

(** The members of an object from behind its opening brace or a comma, up to
    the closing brace.  The fuel is the length of the text, which no object
    has more members than. *)
Fixpoint scan_members (fuel : nat) (s : string)
  : option (list (string * scalar) * string) :=
  match fuel with
  | O => None
  | S fuel' =>
      match skip_ws s with
      | String c r =>
          if decide (c = dquote) then
            match scan_string r with
            | Some (key, s1) =>
                match skip_ws s1 with
                | String ":" s2 =>
                    match scan_scalar (skip_ws s2) with
                    | Some (v, s3) =>
                        match skip_ws s3 with
                        | String "," s4 =>
                            match scan_members fuel' s4 with
                            | Some (ms, rest) => Some ((key, v) :: ms, rest)
                            | None => None
                            end
                        | String "}" s4 => Some ([(key, v)], s4)
                        | _ => None
                        end
                    | None => None
                    end
                | _ => None
                end
            | None => None
            end
          else None
      | EmptyString => None
      end
  end.

(** A dictionary at the head of [s]. *)
Definition scan_object (s : string)
  : option (list (string * scalar) * string) :=
  match skip_ws s with
  | String "{" r =>
      match skip_ws r with
      | String "}" r' => Some ([], r')
      | _ => scan_members (String.length r) r
      end
  | _ => None
  end.

(** The holding a decoded dictionary is: of a key written twice the last
    value counts; a dictionary with other keys, or with a value of another
    type, is no holding. *)
Definition holding_of_members (ms : list (string * scalar))
  : option Holding :=
  let d : gmap string scalar := list_to_map (reverse ms) in
  match d !! "symbol"%string, d !! "name"%string, d !! "quantity"%string,
        d !! "buy_price"%string, d !! "buy_date"%string,
        d !! "current_price"%string, d !! "exchange"%string with
  | Some (JString symbol_), Some (JString name_), Some (JInt quantity_),
    Some (JFloat buy_price_), Some (JString buy_date_),
    Some (JFloat current_price_), Some (JString exchange_) =>
      if decide (size d = 7%nat) then
        Some (mkHolding symbol_ name_ quantity_ buy_price_ buy_date_
                        current_price_ exchange_)
      else None
  | _, _, _, _, _, _, _ => None
  end.

(** The elements of an array of holdings from behind its opening bracket or
    a comma, up to the closing bracket; the fuel is the length of the text
    again. *)
Fixpoint scan_elements (fuel : nat) (s : string)
  : option (list Holding * string) :=
  match fuel with
  | O => None
  | S fuel' =>
      match scan_object s with
      | Some (ms, s1) =>
          match holding_of_members ms, skip_ws s1 with
          | Some h, String "," s2 =>
              match scan_elements fuel' s2 with
              | Some (hs, rest) => Some (h :: hs, rest)
              | None => None
              end
          | Some h, String "]" s2 => Some ([h], s2)
          | _, _ => None
          end
      | None => None
      end
  end.

(** [json.loads(text)]: the list, for a text that is an array of holdings;
    [None] for every other text, on which the library raises or returns a
    value that is no list of holdings.  [load_portfolio loads] is the code's
    [load_portfolio] on the texts of the first kind and on those the library
    raises on. *)
Definition loads (text : string) : option (list Holding) :=
  match skip_ws text with
  | String "[" r =>
      let elements :=
        match skip_ws r with
        | String "]" r' => Some ([], r')
        | _ => scan_elements (String.length r) r
        end in
      match elements with
      | Some (hs, rest) =>
          if decide (skip_ws rest = EmptyString) then Some hs else None
      | None => None
      end
  | _ => None
  end.

(** Every character of [s] satisfies [P]. *)
Fixpoint all_chars (P : ascii → bool) (s : string) : bool :=
  match s with
  | EmptyString => true
  | String c r => P c && all_chars P r
  end.

(** [s] does not go on with a character [P] accepts. *)
Definition stops (P : ascii → bool) (s : string) : Prop :=
  match s with
  | EmptyString => True
  | String c _ => P c = false
  end.

(** ** The select boxes *)

(** An option of "Select a stock:",
    [f"{rec['symbol']} | {rec['name']} ({rec['exchange']})"]. *)
Definition option_label (r : Recommendation) : string :=
  rec_symbol r +:+ " | " +:+ rec_name r +:+ " (" +:+ rec_exchange r +:+ ")".

(** [selected.split(" | ")[0]]; [None] stands for [IndexError]. *)
Definition selected_ticker (selected : string) : option string :=
  split " | " selected !! 0%nat.

(** [selected.split(" | ")[1].split(" (")[0]] *)
Definition selected_name (selected : string) : option string :=
  rest ← split " | " selected !! 1%nat;
  split " (" rest !! 0%nat.

(** [selected.split("(")[1].replace(")", "")] *)
Definition selected_exchange (selected : string) : option string :=
  rest ← split "(" selected !! 1%nat;
  Some (replace ")" "" rest).

(** The "Add to Portfolio" handler on the selected option itself; [None]
    when cutting the option raises. *)
Definition add_selected (json_dumps : list Holding -> string)
    (selected : string) (quantity_ : Z) (buy_price_ : float)
    (buy_date_ : string) (current_price_ : float) (st : app_state)
  : option (app_state * list message) :=
  ticker_symbol ← selected_ticker selected;
  if decide (ticker_symbol = ""%string) then
    Some (st, [Error "Please select a valid stock"])
  else
    name_ ← selected_name selected;
    exchange_ ← selected_exchange selected;
    Some (add_to_portfolio json_dumps ticker_symbol name_ exchange_ quantity_
                           buy_price_ buy_date_ current_price_ st).

(** The fields of a recommendation that survive being shown as an option:
    no bar and no opening parenthesis anywhere, no closing parenthesis in the
    exchange. *)
Definition label_safe (r : Recommendation) : Prop :=
  occurs "|" (rec_symbol r) = false ∧ occurs "(" (rec_symbol r) = false
  ∧ occurs "|" (rec_name r) = false ∧ occurs "(" (rec_name r) = false
  ∧ occurs "|" (rec_exchange r) = false
  ∧ occurs "(" (rec_exchange r) = false
  ∧ occurs ")" (rec_exchange r) = false.

(** An option of "Select stock to remove",
    [f"{i+1}. {item['symbol']} - {item['name']} (Qty: {item['quantity']})"]. *)
Definition delete_label (i : nat) (item : Holding) : string :=
  str_of_int (Z.of_nat i + 1) +:+ ". " +:+ symbol item +:+ " - "
    +:+ name item +:+ " (Qty: " +:+ str_of_int (quantity item) +:+ ")".

Definition delete_options (portfolio : list Holding) : list string :=
  imap delete_label portfolio.

(** [int(delete_index.split(".")[0]) - 1]; [None] when [int] raises. *)
Definition selected_index_of (delete_index : string) : option Z :=
  digits ← split "." delete_index !! 0%nat;
  n ← int_of_text digits;
  Some (n - 1).

(** The "Remove Selected Stock" handler on the selected option itself. *)
Definition remove_selected_option (json_dumps : list Holding -> string)
    (delete_index : string) (st : app_state)
  : option (app_state * list message) :=
  selected_index ← selected_index_of delete_index;
  Some (remove_selected_stock json_dumps selected_index st).

(** ** Search as you type *)

(** [st.session_state.last_search] and [st.session_state.recommendations]. *)
Record search_state := mkSearch {
  last_search : string;
  recommendations : list Recommendation
}.

(** The block under "Auto-search when query changes": the provider is asked
    for a query that is not empty, has at least 3 characters and differs from
    the last one asked. *)
Definition auto_search
    (yahoo_search : string -> string + gmap string (list quote))
    (search_query : string) (s : search_state)
  : search_state * list message :=
  if decide (search_query ≠ ""%string
             ∧ (3 ≤ String.length search_query)%nat
             ∧ search_query ≠ last_search s) then
    let out := get_ticker_recommendations yahoo_search search_query in
    ({| last_search := search_query; recommendations := out.1 |}, out.2)
  else (s, []).

(** ** Analytics *)

(** [Series.unique()]: the distinct values in order of first appearance. *)
Definition unique (l : list string) : list string :=
  foldl (λ seen x, if decide (x ∈ seen) then seen else seen ++ [x]) [] l.

(** The choices of "Select stock to analyze". *)
Definition analysis_options (portfolio_df : DataFrame) : list string :=
  unique (col_symbol portfolio_df).

(** [portfolio_df[portfolio_df["symbol"] == selected].iloc[0]]: the position
    of the first row of that symbol; [None] stands for [IndexError]. *)
Definition analysis_row (portfolio_df : DataFrame) (selected : string)
  : option nat :=
  fst <$> list_find (λ s, s = selected) (col_symbol portfolio_df).

(** [stock_data['buy_date']], where the purchase line is drawn. *)
Definition analysis_buy_date (portfolio_df : DataFrame) (selected : string)
  : option string :=
  i ← analysis_row portfolio_df selected;
  col_buy_date portfolio_df !! i.

(** A price history with one session a day at most, in order of time. *)
Definition strictly_chronological (history : list session) : Prop :=
  StronglySorted (λ a b : session, a.1 < b.1) history.

(** A sample holding: ten shares of "A" bought at 100. *)
Definition holding_A (current : float) : Holding :=
  {| symbol := "A"; name := "Alpha Corp."; quantity := 10;
     buy_price := 100%float; buy_date := "2023-01-02";
     current_price := current; exchange := "NMS" |}.

(** A lot of no shares, as a hand-written [portfolio] query parameter can
    hold it. *)
Definition zero_lot : Holding :=
  {| symbol := "A"; name := "Alpha Corp."; quantity := 0;
     buy_price := 100%float; buy_date := "2023-01-02";
     current_price := 100%float; exchange := "NMS" |}.

(** A lot of 10^400 shares, as a hand-written [portfolio] query parameter can
    hold it. *)
Definition huge_lot : Holding :=
  {| symbol := "A"; name := "Alpha Corp."; quantity := 10 ^ 400;
     buy_price := 100%float; buy_date := "2023-01-02";
     current_price := 100%float; exchange := "NMS" |}.

Definition holding_B : Holding :=
  {| symbol := "B"; name := "Beta Ltd."; quantity := 3;
     buy_price := 20.5%float; buy_date := "2023-02-01";
     current_price := 21%float; exchange := "NSE" |}.

(** A session holding "A" and "B", with no query parameter. *)
Definition sample_state : app_state :=
  {| ss_portfolio := Some [holding_A 100%float; holding_B];
     query_params := ∅ |}.

(** A market that knows "A" and raises for every other symbol. *)
Definition sample_history (sym : string) : option (list float) :=
  if decide (sym = "A"%string) then Some [149.5%float; 150%float] else None.

(** An encoder and a decoder for the examples: the symbols of the list, and
    the text of the sample portfolio decoded back to it. *)
Definition sample_dumps (portfolio : list Holding) : string :=
  String.concat "," (symbol <$> portfolio).

Definition sample_loads (text : string) : option (list Holding) :=
  if decide (text = "A,B"%string)
  then Some [holding_A 100%float; holding_B] else None.

(** A price history of three sessions, on days 1, 3 and 11. *)
Definition sample_sessions : list session :=
  [(1, 5%float); (3, 7%float); (11, 9%float)].

(** A search answer of one quote. *)
Definition sample_quote : quote :=
  {[ "symbol"%string := "AAPL"%string;
     "shortname"%string := "Apple Inc."%string;
     "exchange"%string := "NMS"%string ]}.

Definition sample_search (query : string)
  : string + gmap string (list quote) :=
  inr {[ "quotes"%string := [sample_quote] ]}.

(** A session that has just saved the one holding "A". *)
Definition saved_state : app_state :=
  save_portfolio sample_dumps [holding_A 100%float] sample_state.

(** Two holdings are the same lot when they differ in [current_price] at
    most. *)
Definition same_lot (h h0 : Holding) : Prop :=
  set_current_price h (current_price h0) = h0.

(** The record a successful add stores. *)
Definition added_lot (a : action) : option Holding :=
  match a with
  | Add ticker_symbol name_ exchange_ quantity_ buy_price_ buy_date_
        current_price_ =>
      if decide (ticker_symbol = ""%string) then None
      else Some (mkHolding ticker_symbol name_ quantity_ buy_price_ buy_date_
                           current_price_ exchange_)
  | _ => None
  end.

(** A provider that is down. *)
Definition failing_search (query : string)
  : string + gmap string (list quote) :=
  inl "connection refused"%string.

(** A handler failed when it reported an error. *)
Definition fails_with_error (out : app_state * list message) : Prop :=
  ∃ text, Error text ∈ out.2.

(** The division of [pnl_pct] read as guarded: a row whose investment is zero
    still has a finite [pnl_pct]. *)
Definition division_guarded (rows : list DerivedRow) : Prop :=
  Forall (λ r, is_zero (investment r) = true → is_finite (pnl_pct r) = true)
         rows.

(** * Verification *)

(** ** Binary64 facts used below *)

Lemma is_zero_inv (y : float) :
  is_zero y = true → ∃ s, Prim2SF y = S754_zero s.
Proof.
  unfold is_zero. rewrite FloatAxioms.eqb_spec.
  destruct (Prim2SF y) as [s|s| |s m e] eqn:E; eauto;
    try destruct s; discriminate.
Qed.

Lemma not_finite_nan (r : float) : Prim2SF r = S754_nan → is_finite r = false.
Proof.
  intros E. unfold is_finite, is_nan. by rewrite FloatAxioms.eqb_spec, E.
Qed.

Lemma not_finite_infinity (r : float) (s : bool) :
  Prim2SF r = S754_infinity s → is_finite r = false.
Proof.
  intros E. unfold is_finite, is_infinity.
  rewrite (FloatAxioms.eqb_spec (abs r)), abs_spec, E.
  change (SFeqb _ _) with true. by rewrite orb_true_r.
Qed.

(** A quotient by zero, scaled by 100, is NaN or an infinity. *)
Lemma div_by_zero_not_finite (x y : float) :
  is_zero y = true → is_finite (x / y * 100)%float = false.
Proof.
  intros [s Hy]%is_zero_inv.
  pose proof (div_spec x y) as Hq. rewrite Hy in Hq.
  pose proof (mul_spec (x / y) 100) as Hr.
  change (Prim2SF 100) with (S754_finite false 7036874417766400 (-46)) in Hr.
  destruct (Prim2SF x) as [sx|sx| |sx mx ex]; simpl in Hq; rewrite Hq in Hr;
    simpl in Hr; eauto using not_finite_nan, not_finite_infinity.
Qed.

(** A quotient by NaN, scaled by 100, is NaN. *)
Lemma div_by_nan_not_finite (x y : float) :
  Prim2SF y = S754_nan → is_finite (x / y * 100)%float = false.
Proof.
  intros Hy. apply not_finite_nan.
  rewrite mul_spec, div_spec, Hy. by destruct (Prim2SF x).
Qed.

(** Zero times a price is a zero, or NaN when the price is not finite. *)
Lemma zero_mul_cases (p : float) :
  is_zero (0 * p)%float = true ∨ Prim2SF (0 * p)%float = S754_nan.
Proof.
  unfold is_zero. rewrite FloatAxioms.eqb_spec, mul_spec.
  destruct (Prim2SF p) as [s|s| |s m e]; [left|right|right|left];
    try done; by destruct s.
Qed.

(** ** Price refresh *)

Section RefreshFacts.

Variable json_dumps : list Holding -> string.
Variable yf_history : string -> option (list float).

Lemma foldl_refresh_step (acc l : list Holding) :
  foldl (refresh_step yf_history) acc l
  = acc ++ (refreshed yf_history <$> l).
Proof.
  revert acc. induction l as [|h l IH]; intros acc; simpl.
  - by rewrite app_nil_r.
  - rewrite IH. unfold refresh_step, refreshed.
    destruct (price_lookup yf_history (symbol h));
      by rewrite <- app_assoc.
Qed.

Lemma refresh_prices_portfolio (st : app_state) :
  portfolio_of (refresh_prices json_dumps yf_history st)
  = refreshed yf_history <$> portfolio_of st.
Proof.
  unfold refresh_prices.
  destruct (portfolio_of st) as [|h l] eqn:Hp; [by rewrite Hp|].
  by rewrite foldl_refresh_step.
Qed.

Lemma refresh_prices_stored (st : app_state) :
  portfolio_of st ≠ [] →
  ss_portfolio (refresh_prices json_dumps yf_history st)
  = Some (portfolio_of (refresh_prices json_dumps yf_history st)).
Proof.
  intros Hne. unfold refresh_prices.
  by destruct (portfolio_of st) as [|h l] eqn:Hp.
Qed.

(** When every lookup fails the portfolio is the one of before. *)
Lemma refresh_prices_all_failed (st : app_state) :
  (∀ sym, price_lookup yf_history sym = None) →
  portfolio_of (refresh_prices json_dumps yf_history st) = portfolio_of st.
Proof.
  intros Hnone. rewrite refresh_prices_portfolio.
  rewrite <- (list_fmap_id (portfolio_of st)) at 2.
  apply list_fmap_ext. intros i h _. unfold refreshed. by rewrite Hnone.
Qed.

End RefreshFacts.

(** C1. The refresh returns one holding per holding, in place. Where the
    lookup of a holding's symbol yields a price [p], the holding that comes
    back has [p] as its [current_price] and every other field as before; where
    the lookup raises or yields an empty series, the very same holding comes
    back, so its [current_price] is the previous one: it is neither dropped
    nor zeroed. The outcome for one holding does not depend on the lookups of
    the others, and the refreshed list is what the session holds
    afterwards. *)
Theorem refresh_prices_keeps_stale_price
    (json_dumps : list Holding -> string)
    (yf_history : string -> option (list float))
    (st : app_state) (i : nat) (h : Holding) :
  portfolio_of st !! i = Some h →
  let st' := refresh_prices json_dumps yf_history st in
  ss_portfolio st' = Some (portfolio_of st')
  ∧ length (portfolio_of st') = length (portfolio_of st)
  ∧ (∀ p, price_lookup yf_history (symbol h) = Some p →
        portfolio_of st' !! i
        = Some {| symbol := symbol h; name := name h;
                  quantity := quantity h; buy_price := buy_price h;
                  buy_date := buy_date h; current_price := p;
                  exchange := exchange h |}
        ∧ current_price <$> portfolio_of st' !! i = Some p)
  ∧ (price_lookup yf_history (symbol h) = None →
        portfolio_of st' !! i = Some h
        ∧ current_price <$> portfolio_of st' !! i = Some (current_price h)).
Proof.
  intros Hi st'.
  assert (Hp : portfolio_of st' = refreshed yf_history <$> portfolio_of st)
    by apply refresh_prices_portfolio.
  split; [|split; [|split]].
  - apply refresh_prices_stored. intros Hnil. by rewrite Hnil in Hi.
  - by rewrite Hp, length_fmap.
  - intros p Hl. rewrite Hp, list_lookup_fmap, Hi. simpl.
    unfold refreshed. by rewrite Hl.
  - intros Hl. rewrite Hp, list_lookup_fmap, Hi. simpl.
    unfold refreshed. by rewrite Hl.
Qed.

(** ** Derived metrics *)

Lemma omap_seq_lookup {A B : Type} (f : A → B) (g : nat → option B)
    (l : list A) (k : nat) :
  (∀ i, g (k + i)%nat = f <$> l !! i) →
  omap g (seq k (length l)) = f <$> l.
Proof.
  revert k. induction l as [|x l IH]; intros k Hg; [done|].
  simpl. specialize (Hg 0%nat) as H0. rewrite Nat.add_0_r in H0.
  rewrite H0. simpl. f_equal. apply IH.
  intros i. specialize (Hg (S i)).
  by replace (S k + i)%nat with (k + S i)%nat by lia.
Qed.

Lemma iloc_calculate_metrics (portfolio : list Holding) (i : nat) :
  iloc (calculate_metrics (DataFrame_of portfolio)) i
  = spec_derived_row <$> portfolio !! i.
Proof.
  unfold iloc, calculate_metrics, DataFrame_of, series_scale, series_div,
    series_sub, series_mul_int. simpl.
  rewrite !list_lookup_fmap, !lookup_zip_with, !list_lookup_fmap.
  by destruct (portfolio !! i).
Qed.

(** The column-wise computation agrees with the row-wise formulas. *)
Lemma compute_rows_spec (portfolio : list Holding) :
  compute_rows portfolio = spec_derived_row <$> portfolio.
Proof.
  unfold compute_rows. apply omap_seq_lookup.
  intros i. apply iloc_calculate_metrics.
Qed.

(** The frame of a portfolio whose quantities fit 64 bits. *)
Lemma pd_DataFrame_int64 (portfolio : list Holding) :
  Forall (λ h, int64 (quantity h)) portfolio →
  pd_DataFrame portfolio = Built (DataFrame_of portfolio).
Proof.
  intros Hq. unfold pd_DataFrame.
  destruct (list_find _ portfolio) as [[i h]|] eqn:Hfind; [|done].
  apply list_find_Some in Hfind as (Hi & Hn & _).
  rewrite Forall_lookup in Hq. by specialize (Hq i h Hi).
Qed.

(** No frame for a quantity that no binary64 number can hold, when the
    quantities before it fit 64 bits. *)
Lemma pd_DataFrame_beyond (before after : list Holding) (h : Holding) :
  Forall (λ h, int64 (quantity h)) before →
  beyond_binary64 (quantity h) →
  pd_DataFrame (before ++ h :: after) = OverflowError.
Proof.
  intros Hq Hh. unfold pd_DataFrame.
  assert (Hn : ¬ int64 (quantity h)).
  { unfold int64, beyond_binary64 in *. intros [Hlo Hhi].
    assert (2 ^ 63 < 2 ^ 1024) by (by apply Z.pow_lt_mono_r).
    lia. }
  destruct (list_find _ (before ++ h :: after)) as [[i h']|] eqn:Hfind.
  - apply list_find_Some in Hfind as (Hi & Hn' & Hmin).
    destruct (decide (i < length before)%nat) as [Hlt|Hge].
    + rewrite lookup_app_l in Hi by done.
      rewrite Forall_lookup in Hq. by specialize (Hq i h' Hi).
    + destruct (decide (i = length before)) as [->|Hne].
      * rewrite list_lookup_middle in Hi by done.
        injection Hi as <-. by rewrite decide_True.
      * exfalso. apply (Hmin (length before) h); [|lia|done].
        by apply list_lookup_middle.
  - apply list_find_None in Hfind.
    rewrite Forall_app, Forall_cons in Hfind.
    destruct Hfind as (_ & Hh' & _). by destruct Hh'.
Qed.

Lemma derived_rows_int64 (portfolio : list Holding) :
  Forall (λ h, int64 (quantity h)) portfolio →
  derived_rows portfolio = Built (compute_rows portfolio).
Proof.
  intros Hq. unfold derived_rows. rewrite pd_DataFrame_int64 by done.
  unfold outcome_map, frame_rows, compute_rows. simpl.
  by rewrite length_fmap.
Qed.

(** *** The conversion of a quantity *)

Lemma binary_round_opp (m : positive) (e : Z) :
  binary_round prec emax true m e = SFopp (binary_round prec emax false m e).
Proof.
  unfold binary_round, binary_round_aux.
  destruct (shl_align _ _ _) as [mz ez].
  destruct (shr_fexp _ _ _ _ _) as [mrs' e'].
  destruct (shr_fexp _ _ _ _ _) as [mrs'' e''].
  destruct (shr_m mrs''); simpl; try done.
  by destruct (_ <=? _).
Qed.

(** On the non-negative half of [int64] the conversion is the machine's. *)
Lemma float_of_int_of_uint63 (z : Z) :
  0 ≤ z < 2 ^ 63 → float_of_int z = of_uint63 (Uint63.of_Z z).
Proof.
  intros Hz. unfold float_of_int.
  replace (binary_normalize prec emax z 0 false)
    with (Prim2SF (of_uint63 (Uint63.of_Z z))).
  - apply SF2Prim_Prim2SF.
  - rewrite of_uint63_spec, Uint63.of_Z_spec. f_equal.
    apply Z.mod_small. exact Hz.
Qed.

(** The conversion of a negative quantity is the opposite of the conversion
    of its absolute value. *)
Lemma float_of_int_opp (z : Z) :
  - 2 ^ 63 ≤ z < 0 → float_of_int z = (- float_of_int (- z))%float.
Proof.
  intros [Hlo Hhi].
  destruct (decide (z = - 2 ^ 63)) as [->|Hmin]; [by vm_compute|].
  rewrite (float_of_int_of_uint63 (- z)) by lia.
  destruct z as [|p|p]; [lia|lia|]. unfold float_of_int.
  change (binary_normalize prec emax (Z.neg p) 0 false)
    with (binary_round prec emax true p 0).
  rewrite binary_round_opp.
  change (binary_round prec emax false p 0)
    with (binary_normalize prec emax (Z.pos p) 0 false).
  replace (binary_normalize prec emax (Z.pos p) 0 false)
    with (Prim2SF (of_uint63 (Uint63.of_Z (Z.pos p)))).
  - by rewrite <- FloatAxioms.opp_spec, SF2Prim_Prim2SF.
  - assert (Hp : 0 ≤ Z.pos p < 2 ^ 63) by lia.
    rewrite of_uint63_spec, Uint63.of_Z_spec. f_equal.
    apply Z.mod_small. exact Hp.
Qed.

Lemma digits2_pos_bounds (p : positive) :
  2 ^ (Z.pos (digits2_pos p) - 1) ≤ Z.pos p < 2 ^ Z.pos (digits2_pos p).
Proof.
  induction p as [p IH|p IH|]; simpl digits2_pos.
  - rewrite Pos2Z.inj_succ.
    replace (Z.succ (Z.pos (digits2_pos p)) - 1)
      with (Z.succ (Z.pos (digits2_pos p) - 1)) by lia.
    rewrite !Z.pow_succ_r by lia. lia.
  - rewrite Pos2Z.inj_succ.
    replace (Z.succ (Z.pos (digits2_pos p)) - 1)
      with (Z.succ (Z.pos (digits2_pos p) - 1)) by lia.
    rewrite !Z.pow_succ_r by lia. lia.
  - simpl. lia.
Qed.

Lemma digits2_pos_small (p : positive) :
  Z.pos p < 2 ^ 53 → Z.pos (digits2_pos p) ≤ 53.
Proof.
  intros Hp. destruct (digits2_pos_bounds p) as [Hlo _].
  destruct (decide (Z.pos (digits2_pos p) ≤ 53)) as [|Hd]; [done|].
  assert (2 ^ 53 ≤ 2 ^ (Z.pos (digits2_pos p) - 1))
    by (apply Z.pow_le_mono_r; lia).
  lia.
Qed.

Lemma iter_xO_digits (p k : positive) :
  digits2_pos (Pos.iter xO p k) = (digits2_pos p + k)%positive.
Proof.
  induction k as [|k IH] using Pos.peano_ind.
  - simpl. lia.
  - rewrite Pos.iter_succ. simpl. rewrite IH. lia.
Qed.

Lemma iter_xO_value (p k : positive) :
  Z.pos (Pos.iter xO p k) = Z.pos p * 2 ^ Z.pos k.
Proof.
  induction k as [|k IH] using Pos.peano_ind.
  - simpl. lia.
  - rewrite Pos.iter_succ, Pos2Z.inj_succ, Z.pow_succ_r by lia.
    rewrite Pos2Z.inj_xO, IH. lia.
Qed.

(** A mantissa of 53 bits with an exponent in range is not shifted. *)
Lemma shr_fexp_canonical (m : positive) (e : Z) :
  digits2_pos m = 53%positive → 3 - emax - prec ≤ e →
  shr_fexp prec emax (Z.pos m) e loc_Exact
  = ({| shr_m := Z.pos m; shr_r := false; shr_s := false |}, e).
Proof.
  intros Hm He. unfold shr_fexp, Zdigits2, fexp, emin. rewrite Hm.
  replace (Z.max (53 + e - prec) (3 - emax - prec) - e) with 0
    by (unfold prec, emax in *; lia).
  done.
Qed.

Lemma binary_round_aux_canonical (s : bool) (m : positive) (e : Z) :
  digits2_pos m = 53%positive → 3 - emax - prec ≤ e ≤ emax - prec →
  binary_round_aux prec emax s (Z.pos m) e loc_Exact = S754_finite s m e
  ∧ valid_binary (S754_finite s m e) = true.
Proof.
  intros Hm [Hlo Hhi]. unfold binary_round_aux.
  rewrite shr_fexp_canonical by done. cbn [shr_m loc_of_shr_record].
  cbn [round_nearest_even].
  rewrite shr_fexp_canonical by done. cbn [shr_m].
  replace (e <=? emax - prec) with true by (symmetry; by apply Z.leb_le).
  split; [done|].
  unfold valid_binary, bounded, canonical_mantissa, fexp, emin. rewrite Hm.
  apply andb_true_intro. split; [|by apply Z.leb_le].
  apply Z.eqb_eq. unfold prec, emax in *. lia.
Qed.

(** Rounding an integer below 2^53 keeps it: the mantissa is the integer
    shifted left to 53 bits. *)
Lemma binary_round_small (s : bool) (p : positive) :
  Z.pos p < 2 ^ 53 →
  ∃ m e, binary_round prec emax s p 0 = S754_finite s m e
         ∧ e ≤ 0
         ∧ Z.pos m = Z.pos p * 2 ^ (- e)
         ∧ valid_binary (S754_finite s m e) = true.
Proof.
  intros Hp. pose proof (digits2_pos_small p Hp) as Hd.
  unfold binary_round, fexp, emin, shl_align.
  assert (Hf : Z.max (Z.pos (digits2_pos p) + 0 - prec) (3 - emax - prec)
               = Z.pos (digits2_pos p) - 53)
    by (unfold prec, emax; lia).
  rewrite Hf.
  destruct (Z.pos (digits2_pos p) - 53 - 0) as [|k|k] eqn:Hk; [|lia|].
  - exists p, 0.
    assert (Hd53 : digits2_pos p = 53%positive) by lia.
    destruct (binary_round_aux_canonical s p 0 Hd53) as [-> ?];
      [unfold prec, emax; lia|].
    split_and!; [done|done|lia|done].
  - exists (Pos.iter xO p k), (Z.pos (digits2_pos p) - 53).
    assert (Hdk : digits2_pos (Pos.iter xO p k) = 53%positive)
      by (rewrite iter_xO_digits; lia).
    destruct (binary_round_aux_canonical s (Pos.iter xO p k)
                (Z.pos (digits2_pos p) - 53) Hdk) as [-> ?];
      [unfold prec, emax; lia|].
    split_and!; [done|lia| |done].
    rewrite iter_xO_value. f_equal. f_equal. lia.
Qed.

(** Below 2^53 the conversion is exact: the number obtained is the integer. *)
Lemma int_of_float_float_of_int (z : Z) :
  Z.abs z < 2 ^ 53 → int_of_float (float_of_int z) = Some z.
Proof.
  intros Hz. unfold int_of_float, float_of_int.
  destruct z as [|p|p].
  - done.
  - change (binary_normalize prec emax (Z.pos p) 0 false)
      with (binary_round prec emax false p 0).
    destruct (binary_round_small false p) as (m & e & -> & He & Hm & Hv);
      [lia|].
    rewrite Prim2SF_SF2Prim by done.
    destruct (decide (0 ≤ e)) as [He0|He0].
    + assert (e = 0) as -> by lia. simpl. f_equal. simpl in Hm. lia.
    + rewrite Hm, Z.mod_mul, Z.div_mul by (apply Z.pow_nonzero; lia).
      by rewrite decide_True.
  - change (binary_normalize prec emax (Z.neg p) 0 false)
      with (binary_round prec emax true p 0).
    destruct (binary_round_small true p) as (m & e & -> & He & Hm & Hv);
      [lia|].
    rewrite Prim2SF_SF2Prim by done.
    destruct (decide (0 ≤ e)) as [He0|He0].
    + assert (e = 0) as -> by lia. simpl. f_equal. simpl in Hm. lia.
    + rewrite Hm, Z.mod_mul, Z.div_mul by (apply Z.pow_nonzero; lia).
      by rewrite decide_True.
Qed.

(** C2, as stated, fails: the rows are not computed for every holding.  For a
    lot of 10^400 shares [pd.DataFrame] raises [OverflowError] and the page
    computes no row at all. *)
Lemma derived_rows_overflow_at_huge_quantity :
  derived_rows [huge_lot] = OverflowError
  ∧ ∀ rows : list DerivedRow, derived_rows [huge_lot] ≠ Built rows.
Proof.
  assert (H : derived_rows [huge_lot] = OverflowError) by (by vm_compute).
  split; [exact H|]. intros rows. by rewrite H.
Qed.

(** C2, amended. For every list of holdings whose quantities fit 64 bits the
    derived rows are computed, one per holding in input order, each as
    investment = quantity * buy_price, current_value = quantity *
    current_price, pnl = current_value - investment and pnl_pct = pnl /
    investment * 100, in binary64 arithmetic; the quantity enters as the
    machine's conversion of the integer, which below 2^53 is the integer
    itself.  For ten shares of "A" bought at 100 and priced 100 the row is
    1000, 1000, 0, 0, and priced 150 it is 1000, 1500, 500, 50.  A quantity
    that no binary64 number can hold, after quantities that fit 64 bits,
    makes the frame raise [OverflowError]: no row is computed. *)
Theorem derived_rows_formulas :
  (∀ portfolio : list Holding,
     Forall (λ h, int64 (quantity h)) portfolio →
     derived_rows portfolio
     = Built ((λ h,
                 let inv := (float_of_int (quantity h) * buy_price h)%float in
                 let cv :=
                   (float_of_int (quantity h) * current_price h)%float in
                 {| investment := inv; current_value := cv;
                    pnl := (cv - inv)%float;
                    pnl_pct := ((cv - inv) / inv * 100)%float |})
                <$> portfolio))
  ∧ (∀ z : Z,
       int64 z →
       (0 ≤ z → float_of_int z = of_uint63 (Uint63.of_Z z))
       ∧ (z < 0 → float_of_int z = (- float_of_int (- z))%float)
       ∧ (Z.abs z < 2 ^ 53 → int_of_float (float_of_int z) = Some z))
  ∧ (∀ name_ date_ exchange_ : string,
       derived_rows [mkHolding "A" name_ 10 100%float date_ 100%float exchange_]
       = Built [mkRow 1000 1000 0 0]
       ∧ derived_rows
           [mkHolding "A" name_ 10 100%float date_ 150%float exchange_]
         = Built [mkRow 1000 1500 500 50])
  ∧ (∀ (before after : list Holding) (h : Holding),
       Forall (λ h, int64 (quantity h)) before →
       beyond_binary64 (quantity h) →
       derived_rows (before ++ h :: after) = OverflowError).
Proof.
  split_and!.
  - intros portfolio Hq. rewrite derived_rows_int64 by done.
    f_equal. apply compute_rows_spec.
  - intros z [Hlo Hhi]. split_and!.
    + intros H0. by apply float_of_int_of_uint63.
    + intros H0. by apply float_of_int_opp.
    + apply int_of_float_float_of_int.
  - intros. split; reflexivity.
  - intros before after h Hq Hh. unfold derived_rows.
    by rewrite pd_DataFrame_beyond.
Qed.

Lemma derived_rows_formulas_witness :
  Forall (λ h, int64 (quantity h)) [holding_A 150%float; holding_B]
  ∧ derived_rows [holding_A 150%float; holding_B]
    = Built [mkRow 1000 1500 500 50; mkRow 61.5 63 1.5 (1.5 / 61.5 * 100)]
  ∧ int64 10
  ∧ float_of_int 10 = of_uint63 (Uint63.of_Z 10)
  ∧ int_of_float (float_of_int 10) = Some 10
  ∧ int64 (- 3)
  ∧ float_of_int (- 3) = (- float_of_int 3)%float
  ∧ beyond_binary64 (quantity huge_lot)
  ∧ derived_rows [holding_B; huge_lot] = OverflowError.
Proof.
  assert (Hq : Forall (λ h, int64 (quantity h))
                      [holding_A 150%float; holding_B])
    by (repeat constructor; by vm_compute).
  assert (H10 : int64 10) by (by vm_compute).
  assert (H3 : int64 (- 3)) by (by vm_compute).
  assert (Hb : Forall (λ h, int64 (quantity h)) [holding_B])
    by (repeat constructor; by vm_compute).
  assert (Hh : beyond_binary64 (quantity huge_lot)) by (by vm_compute).
  split; [exact Hq|]. split.
  { exact (proj1 derived_rows_formulas [holding_A 150%float; holding_B] Hq). }
  split; [exact H10|]. split.
  { exact (proj1 (proj1 (proj2 derived_rows_formulas) 10 H10)
                 ltac:(done)). }
  split.
  { exact (proj2 (proj2 (proj1 (proj2 derived_rows_formulas) 10 H10))
                 ltac:(done)). }
  split; [exact H3|]. split.
  { exact (proj1 (proj2 (proj1 (proj2 derived_rows_formulas) (- 3) H3))
                 ltac:(done)). }
  split; [exact Hh|].
  exact (proj2 (proj2 (proj2 derived_rows_formulas))
               [holding_B] [] huge_lot Hb Hh).
Defined.

Lemma refresh_prices_keeps_stale_price_witness :
  let st := sample_state in
  let st' := refresh_prices sample_dumps sample_history st in
  (portfolio_of st !! 0%nat = Some (holding_A 100%float)
   ∧ price_lookup sample_history "A" = Some 150%float
   ∧ portfolio_of st' !! 0%nat = Some (holding_A 150%float)
   ∧ current_price <$> portfolio_of st' !! 0%nat = Some 150%float)
  ∧ (portfolio_of st !! 1%nat = Some holding_B
     ∧ price_lookup sample_history "B" = None
     ∧ portfolio_of st' !! 1%nat = Some holding_B
     ∧ current_price <$> portfolio_of st' !! 1%nat = Some 21%float).
Proof.
  split.
  - split; [reflexivity|]. split; [reflexivity|].
    exact (proj1 (proj2 (proj2 (refresh_prices_keeps_stale_price
                                  sample_dumps sample_history sample_state 0
                                  (holding_A 100%float) eq_refl)))
                 150%float eq_refl).
  - split; [reflexivity|]. split; [reflexivity|].
    exact (proj2 (proj2 (proj2 (refresh_prices_keeps_stale_price
                                  sample_dumps sample_history sample_state 1
                                  holding_B eq_refl)))
                 eq_refl).
Defined.

(** C3, as stated, fails: for a lot of no shares the investment is zero and
    the computed [pnl_pct] is NaN, the quotient 0 / 0: the division was carried
    out on a zero divisor. *)
Lemma pnl_pct_division_unguarded :
  compute_rows [zero_lot] = [mkRow 0 0 0 nan]
  ∧ ¬ division_guarded (compute_rows [zero_lot]).
Proof.
  rewrite compute_rows_spec. split; [reflexivity|].
  intros Hg. apply Forall_cons_1 in Hg as [Hg _].
  specialize (Hg eq_refl). discriminate Hg.
Qed.

(** C3, amended. The division of [pnl_pct] is not guarded. For every list
    of holdings whose quantities fit 64 bits the derived rows are computed
    without a fault, one row per holding; the row of a holding whose
    investment quantity * buy_price is zero has as [pnl_pct] the IEEE-754
    result of dividing by zero, NaN or an infinity, never a finite number, and
    so has every holding of no shares. *)
Theorem pnl_pct_not_finite_at_zero_investment (portfolio : list Holding) :
  Forall (λ h, int64 (quantity h)) portfolio →
  ∃ rows : list DerivedRow,
    derived_rows portfolio = Built rows
    ∧ length rows = length portfolio
    ∧ ∀ (i : nat) (h : Holding),
        portfolio !! i = Some h →
        ∃ r, rows !! i = Some r
             ∧ investment r = (float_of_int (quantity h) * buy_price h)%float
             ∧ (is_zero (investment r) = true →
                  is_finite (pnl_pct r) = false)
             ∧ (quantity h = 0 → is_finite (pnl_pct r) = false).
Proof.
  intros Hq. exists (spec_derived_row <$> portfolio).
  rewrite derived_rows_int64, compute_rows_spec by done.
  split; [done|]. split; [by rewrite length_fmap|].
  intros i h Hi. exists (spec_derived_row h).
  rewrite list_lookup_fmap, Hi. split; [done|]. split; [done|]. split.
  - intros Hz. by apply div_by_zero_not_finite.
  - intros H0. unfold spec_derived_row. simpl. rewrite H0.
    change (float_of_int 0) with 0%float.
    destruct (zero_mul_cases (buy_price h)) as [Hz|Hn].
    + by apply div_by_zero_not_finite.
    + by apply div_by_nan_not_finite.
Qed.

Lemma pnl_pct_not_finite_at_zero_investment_witness :
  Forall (λ h, int64 (quantity h)) [zero_lot; holding_B]
  ∧ ∃ rows : list DerivedRow,
      derived_rows [zero_lot; holding_B] = Built rows
      ∧ length rows = 2%nat
      ∧ ∃ r, rows !! 0%nat = Some r
             ∧ investment r = 0%float
             ∧ is_finite (pnl_pct r) = false.
Proof.
  assert (Hq : Forall (λ h, int64 (quantity h)) [zero_lot; holding_B])
    by (repeat constructor; by vm_compute).
  split; [exact Hq|].
  destruct (pnl_pct_not_finite_at_zero_investment [zero_lot; holding_B] Hq)
    as (rows & Hrows & Hlen & Hrow).
  destruct (Hrow 0%nat zero_lot eq_refl) as (r & Hr & Hinv & _ & Hnf).
  exists rows. split; [exact Hrows|]. split; [exact Hlen|].
  exists r. split; [exact Hr|]. split; [exact Hinv|]. exact (Hnf eq_refl).
Defined.

(** ** Totals *)

(** C7. The totals of the empty row sequence are all zero; more generally,
    whenever the total investment is zero, [total_pnl_pct] is 0 and no
    quotient is formed. *)
Theorem aggregate_empty :
  aggregate [] = {| total_investment := 0; total_current_value := 0;
                    total_pnl := 0; total_pnl_pct := 0 |}
  ∧ ∀ rows : list DerivedRow,
      is_zero (total_investment (aggregate rows)) = true →
      total_pnl_pct (aggregate rows) = 0%float.
Proof.
  split; [reflexivity|].
  intros rows Hz. unfold aggregate in *. simpl in *. by rewrite Hz.
Qed.

Lemma aggregate_empty_witness :
  is_zero (total_investment (aggregate [mkRow 0 0 0 nan])) = true
  ∧ total_pnl_pct (aggregate [mkRow 0 0 0 nan]) = 0%float.
Proof.
  split; [reflexivity|].
  apply (proj2 aggregate_empty [mkRow 0 0 0 nan]). reflexivity.
Defined.

(** ** Holdings store *)

Section StoreFacts.

Variable json_dumps : list Holding -> string.

(** The comprehension over [enumerate], started at index [off]. *)
Lemma remove_index_past (off : nat) (k : Z) (l : list Holding) :
  k < Z.of_nat off →
  snd <$> filter (λ p : nat * Holding, Z.of_nat p.1 ≠ k)
                 (imap (λ i, pair (off + i)%nat) l) = l.
Proof.
  revert off. induction l as [|x l IH]; intros off Hk; [done|].
  rewrite imap_cons, filter_cons_True by (simpl; lia).
  simpl. f_equal.
  rewrite (imap_ext _ (λ i, pair (S off + i)%nat))
    by (intros; simpl; f_equal; lia).
  apply IH. lia.
Qed.

Lemma remove_index_from (off n : nat) (l : list Holding) :
  (off ≤ n)%nat →
  snd <$> filter (λ p : nat * Holding, Z.of_nat p.1 ≠ Z.of_nat n)
                 (imap (λ i, pair (off + i)%nat) l)
  = delete (n - off)%nat l.
Proof.
  revert off. induction l as [|x l IH]; intros off Hn; [done|].
  rewrite imap_cons.
  rewrite (imap_ext _ (λ i, pair (S off + i)%nat))
    by (intros; simpl; f_equal; lia).
  destruct (decide (off = n)) as [->|Hne].
  - rewrite filter_cons_False by (simpl; intros H; apply H; f_equal; lia).
    rewrite Nat.sub_diag. simpl. apply (remove_index_past (S n)). lia.
  - rewrite filter_cons_True by (simpl; lia).
    replace (n - off)%nat with (S (n - S off)) by lia.
    simpl. f_equal. apply (IH (S off)). lia.
Qed.

Lemma remove_index_delete (n : nat) (l : list Holding) :
  remove_index (Z.of_nat n) l = delete n l.
Proof.
  unfold remove_index.
  pose proof (remove_index_from 0 n l (Nat.le_0_l n)) as H.
  rewrite Nat.sub_0_r in H. exact H.
Qed.

Lemma remove_selected_stock_in_range (selected_index : Z) (st : app_state) :
  0 ≤ selected_index < Z.of_nat (length (portfolio_of st)) →
  portfolio_of (remove_selected_stock json_dumps selected_index st).1
  = delete (Z.to_nat selected_index) (portfolio_of st).
Proof.
  intros Hr. unfold remove_selected_stock.
  rewrite decide_True by done.
  destruct (lookup_lt_is_Some_2 (portfolio_of st) (Z.to_nat selected_index))
    as [removed Hl]; [lia|].
  rewrite Hl. simpl. unfold portfolio_of at 1. simpl.
  rewrite <- (Z2Nat.id selected_index) at 1 by lia.
  apply remove_index_delete.
Qed.

End StoreFacts.

(** C4, as stated, fails: removing at index 5 from a portfolio of two leaves
    the state unchanged but reports no error at all. *)
Lemma remove_out_of_range_reports_nothing :
  remove_selected_stock sample_dumps 5 sample_state = (sample_state, [])
  ∧ ¬ fails_with_error (remove_selected_stock sample_dumps 5 sample_state).
Proof.
  split; [reflexivity|].
  intros [text Hin]. simpl in Hin. by apply elem_of_nil in Hin.
Qed.

(** C4, amended. For every portfolio and every index not within [0, len), the
    remove handler does nothing: the whole state, holdings included, is
    unchanged, and nothing is reported, neither an error nor a success. *)
Theorem remove_selected_stock_out_of_range
    (json_dumps : list Holding -> string)
    (selected_index : Z) (st : app_state) :
  ¬ (0 ≤ selected_index < Z.of_nat (length (portfolio_of st))) →
  remove_selected_stock json_dumps selected_index st = (st, []).
Proof.
  intros Hr. unfold remove_selected_stock. by rewrite decide_False.
Qed.

Lemma remove_selected_stock_out_of_range_witness :
  ¬ (0 ≤ -1 < Z.of_nat (length (portfolio_of sample_state)))
  ∧ remove_selected_stock sample_dumps (-1) sample_state = (sample_state, []).
Proof.
  assert (H : ¬ (0 ≤ -1 < Z.of_nat (length (portfolio_of sample_state))))
    by (simpl; lia).
  split; [exact H|].
  exact (remove_selected_stock_out_of_range sample_dumps (-1) sample_state H).
Defined.

(** C8. For every portfolio and every index i within [0, len), after the
    remove handler the portfolio is the old one with position i taken out: it
    is one shorter, positions before i are unchanged and every later position
    holds what stood one place further on. *)
Theorem remove_selected_stock_removes
    (json_dumps : list Holding -> string)
    (selected_index : Z) (st : app_state) :
  0 ≤ selected_index < Z.of_nat (length (portfolio_of st)) →
  let i := Z.to_nat selected_index in
  let old := portfolio_of st in
  let new :=
    portfolio_of (remove_selected_stock json_dumps selected_index st).1 in
  new = take i old ++ drop (S i) old
  ∧ S (length new) = length old
  ∧ (∀ j, (j < i)%nat → new !! j = old !! j)
  ∧ (∀ j, (i ≤ j)%nat → new !! j = old !! S j).
Proof.
  intros Hr i old new.
  assert (Hnew : new = delete i old)
    by (by apply remove_selected_stock_in_range).
  rewrite Hnew. split; [apply delete_take_drop|].
  split; [|split].
  - rewrite length_delete by (apply lookup_lt_is_Some_2; subst i old; lia).
    subst i old. lia.
  - intros j Hj. by apply list_lookup_delete_lt.
  - intros j Hj. by apply list_lookup_delete_ge.
Qed.

Lemma remove_selected_stock_removes_witness :
  0 ≤ 0 < Z.of_nat (length (portfolio_of sample_state))
  ∧ portfolio_of (remove_selected_stock sample_dumps 0 sample_state).1
    = [holding_B].
Proof.
  assert (H : 0 ≤ 0 < Z.of_nat (length (portfolio_of sample_state)))
    by (simpl; lia).
  split; [exact H|].
  exact (proj1 (remove_selected_stock_removes sample_dumps 0 sample_state H)).
Defined.

(** C5, as stated, fails: a record of zero shares bought at a negative price
    is appended and reported as added. *)
Lemma add_to_portfolio_accepts_nonpositive :
  let out :=
    add_to_portfolio sample_dumps "C" "Gamma" "NMS" 0 (-1)%float "2023-03-01"
                     5%float sample_state in
  portfolio_of out.1
  = portfolio_of sample_state
    ++ [mkHolding "C" "Gamma" 0 (-1)%float "2023-03-01" 5%float "NMS"]
  ∧ out.2 = [Success "Added C to portfolio!"]
  ∧ ¬ fails_with_error out.
Proof.
  split; [reflexivity|]. split; [reflexivity|].
  intros [text Hin]. simpl in Hin.
  apply list_elem_of_singleton in Hin. discriminate Hin.
Qed.

(** C5, amended. The add handler validates the symbol only. For the empty
    symbol it reports an error and leaves the whole state unchanged; for every
    non-empty symbol, whatever the quantity and the buy price, it succeeds:
    the record is appended at the end of the holdings, which are saved. *)
Theorem add_to_portfolio_validates_symbol
    (json_dumps : list Holding -> string)
    (ticker_symbol name_ exchange_ : string) (quantity_ : Z)
    (buy_price_ : float) (buy_date_ : string) (current_price_ : float)
    (st : app_state) :
  let out :=
    add_to_portfolio json_dumps ticker_symbol name_ exchange_ quantity_
                     buy_price_ buy_date_ current_price_ st in
  (ticker_symbol = ""%string →
     out = (st, [Error "Please select a valid stock"]))
  ∧ (ticker_symbol ≠ ""%string →
       ss_portfolio out.1
       = Some (portfolio_of st
               ++ [mkHolding ticker_symbol name_ quantity_ buy_price_
                             buy_date_ current_price_ exchange_])
       ∧ ¬ fails_with_error out).
Proof.
  intros out. subst out. unfold add_to_portfolio. split; intros Hs.
  - by rewrite decide_True.
  - rewrite decide_False by done. split; [done|].
    intros [text Hin]. simpl in Hin.
    apply list_elem_of_singleton in Hin. discriminate Hin.
Qed.

Lemma add_to_portfolio_validates_symbol_witness :
  (""%string = ""%string
   ∧ add_to_portfolio sample_dumps "" "Gamma" "NMS" 4 5%float "2023-03-01"
                      5%float sample_state
     = (sample_state, [Error "Please select a valid stock"]))
  ∧ ("C"%string ≠ ""%string
     ∧ ss_portfolio
         (add_to_portfolio sample_dumps "C" "Gamma" "NMS" 4 5%float
                           "2023-03-01" 5%float sample_state).1
       = Some [holding_A 100%float; holding_B;
               mkHolding "C" "Gamma" 4 5%float "2023-03-01" 5%float "NMS"]).
Proof.
  assert (Hne : "C"%string ≠ ""%string) by discriminate.
  split; split; [reflexivity| |exact Hne|].
  - exact (proj1 (add_to_portfolio_validates_symbol sample_dumps "" "Gamma"
                    "NMS" 4 5%float "2023-03-01" 5%float sample_state)
                 eq_refl).
  - exact (proj1 (proj2 (add_to_portfolio_validates_symbol sample_dumps "C"
                    "Gamma" "NMS" 4 5%float "2023-03-01" 5%float
                    sample_state) Hne)).
Defined.

(** ** Historical price *)

Lemma StronglySorted_filter {A : Type} (R : relation A) (P : A → Prop)
    `{!∀ x, Decision (P x)} (l : list A) :
  StronglySorted R l → StronglySorted R (filter P l).
Proof.
  induction 1 as [|x l Hl IH Hx]; [constructor|].
  rewrite filter_cons. destruct (decide (P x)); [|done].
  constructor; [done|].
  apply Forall_forall. intros y [_ Hy]%list_elem_of_filter.
  by eapply Forall_forall in Hx.
Qed.

(** The last element of a sorted list is above every element. *)
Lemma StronglySorted_last {A : Type} (R : relation A) `{!Reflexive R}
    (l : list A) (x y : A) :
  StronglySorted R l → last l = Some x → y ∈ l → R y x.
Proof.
  intros Hs [l' ->]%last_Some Hy.
  apply elem_of_app in Hy as [Hy|Hy].
  - eapply StronglySorted_app_1_elem_of; [done..|]. by apply list_elem_of_singleton.
  - apply list_elem_of_singleton in Hy. by subst.
Qed.

(** With a provider that answers from a history, the two selections of
    [get_historical_price] amount to one: the sessions of the eight days
    [date - 7 .. date]. *)
Lemma get_historical_price_window (history : list session) (ticker : string)
    (date : Z) :
  get_historical_price (download_from history) ticker date
  = (snd <$> last (filter (λ s : session, date - 7 ≤ s.1 ≤ date) history),
     []).
Proof.
  unfold get_historical_price, download_from.
  assert (Hf : filter (λ s : session, s.1 ≤ date)
                 (filter (λ s : session, date - 7 ≤ s.1 < date + 1) history)
               = filter (λ s : session, date - 7 ≤ s.1 ≤ date) history).
  { rewrite list_filter_filter. apply list_filter_iff. intros s. lia. }
  destruct (filter (λ s : session, date - 7 ≤ s.1 < date + 1) history)
    as [|s0 data] eqn:Hd.
  - rewrite <- Hf. done.
  - rewrite Hf. by destruct (last _).
Qed.

Lemma get_historical_price_provider_error
    (yf_download : string -> Z -> Z -> string + list session)
    (ticker : string) (date : Z) (e : string) :
  yf_download ticker (date - 7) (date + 1) = inl e →
  (get_historical_price yf_download ticker date).1 = None.
Proof. intros He. unfold get_historical_price. by rewrite He. Qed.

(** C6. For every symbol, date and chronological price history, the price
    returned is the close of a session of the history that lies on or before
    the date and at most 7 days before it, and no session of the history on or
    before the date is more recent; when the history has no session in that
    window, nothing is returned. No message is shown either way. *)
Theorem get_historical_price_most_recent
    (history : list session) (ticker : string) (date : Z) :
  chronological history →
  let out := get_historical_price (download_from history) ticker date in
  out.2 = []
  ∧ match out.1 with
    | Some c =>
        ∃ d, (d, c) ∈ history ∧ date - 7 ≤ d ≤ date
             ∧ ∀ s : session, s ∈ history → s.1 ≤ date → s.1 ≤ d
    | None => ∀ s : session, s ∈ history → ¬ (date - 7 ≤ s.1 ≤ date)
    end.
Proof.
  intros Hs out. subst out. rewrite get_historical_price_window. simpl.
  split; [done|].
  destruct (last _) as [[d c]|] eqn:Hl; simpl.
  - assert (Hin : (d, c) ∈ filter (λ s : session, date - 7 ≤ s.1 ≤ date)
                               history)
      by (by eapply last_Some_elem_of).
    apply list_elem_of_filter in Hin as [Hw Hin]. simpl in Hw.
    exists d. split; [done|]. split; [done|].
    intros s Hsin Hle.
    destruct (decide (date - 7 ≤ s.1)) as [Hge|Hlt]; [|lia].
    change (s.1 ≤ (d, c).1).
    assert (Hrefl : Reflexive (λ a b : session, a.1 ≤ b.1))
      by (intros a; simpl; lia).
    eapply (StronglySorted_last (λ a b : session, a.1 ≤ b.1)); [|exact Hl|].
    + by apply StronglySorted_filter.
    + apply list_elem_of_filter. split; [lia|done].
  - apply last_None in Hl. intros s Hsin Hw.
    assert (Hin : s ∈ filter (λ s : session, date - 7 ≤ s.1 ≤ date) history)
      by (by apply list_elem_of_filter).
    rewrite Hl in Hin. by apply elem_of_nil in Hin.
Qed.

Lemma get_historical_price_most_recent_witness :
  chronological sample_sessions
  ∧ (get_historical_price (download_from sample_sessions) "X" 10).1
    = Some 7%float
  ∧ (get_historical_price (download_from sample_sessions) "X" 20).1 = None
  ∧ ∃ d, (d, 7%float) ∈ sample_sessions ∧ 10 - 7 ≤ d ≤ 10
         ∧ ∀ s : session, s ∈ sample_sessions → s.1 ≤ 10 → s.1 ≤ d.
Proof.
  assert (H : chronological sample_sessions).
  { unfold chronological, sample_sessions.
    repeat constructor; simpl; lia. }
  split; [exact H|]. split; [reflexivity|]. split; [reflexivity|].
  exact (proj2 (get_historical_price_most_recent sample_sessions "X" 10 H)).
Defined.

(** ** Ticker search *)

Lemma recommendation_of_fields (q : quote) :
  recommendation_of q
  = {| rec_symbol := default ""%string (q !! "symbol"%string);
       rec_name := default (default ""%string (q !! "longname"%string))
                           (q !! "shortname"%string);
       rec_exchange := default "Unknown"%string (q !! "exchange"%string) |}.
Proof.
  unfold recommendation_of. by repeat case_decide.
Qed.

(** C10. For every query and every answer of the provider, the search
    returns at most 8 recommendations, the first quotes of the answer in
    order, each with the quote's symbol, its short name (else its long name)
    and its exchange; when the provider call raises, it returns the empty
    list. *)
Theorem get_ticker_recommendations_at_most_8
    (yahoo_search : string -> string + gmap string (list quote))
    (query : string) :
  let out := get_ticker_recommendations yahoo_search query in
  (length out.1 ≤ 8)%nat
  ∧ (∀ e, yahoo_search query = inl e →
          out = ([], [Error ("Search error: " +:+ e)]))
  ∧ (∀ data i r,
       yahoo_search query = inr data →
       out.1 !! i = Some r →
       ∃ q, default [] (data !! "quotes"%string) !! i = Some q
            ∧ (∀ v, q !! "symbol"%string = Some v → rec_symbol r = v)
            ∧ (∀ v, q !! "shortname"%string = Some v → rec_name r = v)
            ∧ (∀ v, q !! "shortname"%string = None →
                    q !! "longname"%string = Some v → rec_name r = v)
            ∧ (∀ v, q !! "exchange"%string = Some v → rec_exchange r = v)).
Proof.
  intros out. subst out. unfold get_ticker_recommendations.
  split; [|split].
  - destruct (yahoo_search query) as [e|data]; simpl; [lia|].
    rewrite length_fmap, length_take. lia.
  - by intros e ->.
  - intros data i r -> Hr. simpl in Hr.
    rewrite list_lookup_fmap in Hr.
    destruct (take 8 _ !! i) as [q|] eqn:Hq; [|done].
    simpl in Hr. injection Hr as <-.
    apply lookup_take_Some in Hq as [Hq _].
    exists q. split; [done|]. rewrite recommendation_of_fields. simpl.
    repeat split; intros v; intros; by simplify_option_eq.
Qed.

Lemma get_ticker_recommendations_at_most_8_witness :
  sample_search "app" = inr {[ "quotes"%string := [sample_quote] ]}
  ∧ (get_ticker_recommendations sample_search "app").1 !! 0%nat
    = Some (mkRec "AAPL" "Apple Inc." "NMS")
  ∧ ∃ q, default [] (({[ "quotes"%string := [sample_quote] ]}
                        : gmap string (list quote)) !! "quotes"%string)
           !! 0%nat = Some q
         ∧ (∀ v, q !! "symbol"%string = Some v → "AAPL"%string = v).
Proof.
  split; [reflexivity|]. split; [reflexivity|].
  destruct (proj2 (proj2 (get_ticker_recommendations_at_most_8
                            sample_search "app"))
              {[ "quotes"%string := [sample_quote] ]} 0%nat
              (mkRec "AAPL" "Apple Inc." "NMS") eq_refl eq_refl)
    as (q & Hq & Hsym & _).
  exists q. split; [exact Hq | exact Hsym].
Defined.

(** * Further properties of the page *)

(** ** The holdings after each handler *)

Section HandlerFacts.

Variable json_dumps : list Holding -> string.

Lemma add_to_portfolio_portfolio (ticker_symbol name_ exchange_ : string)
    (quantity_ : Z) (buy_price_ : float) (buy_date_ : string)
    (current_price_ : float) (st : app_state) :
  portfolio_of
    (add_to_portfolio json_dumps ticker_symbol name_ exchange_ quantity_
                      buy_price_ buy_date_ current_price_ st).1
  = portfolio_of st
    ++ option_list
         (added_lot (Add ticker_symbol name_ exchange_ quantity_ buy_price_
                         buy_date_ current_price_)).
Proof.
  unfold add_to_portfolio, added_lot.
  destruct (decide (ticker_symbol = ""%string)); simpl; [|done].
  by rewrite app_nil_r.
Qed.

Lemma remove_selected_stock_portfolio (selected_index : Z) (st : app_state) :
  portfolio_of (remove_selected_stock json_dumps selected_index st).1
  = if decide (0 ≤ selected_index < Z.of_nat (length (portfolio_of st)))
    then delete (Z.to_nat selected_index) (portfolio_of st)
    else portfolio_of st.
Proof.
  case_decide as Hr.
  - by apply remove_selected_stock_in_range.
  - unfold remove_selected_stock. by rewrite decide_False.
Qed.

Lemma clear_portfolio_portfolio (st : app_state) :
  portfolio_of (clear_portfolio json_dumps st).1 = [].
Proof.
  unfold clear_portfolio. by destruct (portfolio_of st) eqn:Hp.
Qed.

Lemma save_portfolio_in_sync (portfolio : list Holding) (st : app_state) :
  in_sync json_dumps (save_portfolio json_dumps portfolio st).
Proof. by exists portfolio. Qed.

(** A step either leaves the state as it is or ends in a save. *)
Lemma step_cases (st : app_state) (a : action) :
  step json_dumps st a = st
  ∨ ∃ portfolio st0, step json_dumps st a
                     = save_portfolio json_dumps portfolio st0.
Proof.
  destruct a as [sym nm ex q bp bd cp|i|market|]; simpl.
  - unfold add_to_portfolio. case_decide; simpl; eauto.
  - unfold remove_selected_stock. case_decide; simpl; eauto.
    destruct (_ !! _); simpl; eauto.
  - unfold refresh_prices. destruct (portfolio_of st); eauto.
  - unfold clear_portfolio. destruct (portfolio_of st); simpl; eauto.
Qed.

Lemma step_in_sync (st : app_state) (a : action) :
  in_sync json_dumps st → in_sync json_dumps (step json_dumps st a).
Proof.
  intros Hs. destruct (step_cases st a) as [->|(p & st0 & ->)]; [done|].
  apply save_portfolio_in_sync.
Qed.

Lemma run_in_sync (st : app_state) (actions : list action) :
  in_sync json_dumps st → in_sync json_dumps (run json_dumps st actions).
Proof.
  revert st. induction actions as [|a actions IH]; intros st Hs; [done|].
  apply IH. by apply step_in_sync.
Qed.

(** What a step does to the list of holdings. *)
Lemma step_portfolio (st : app_state) (a : action) :
  portfolio_of (step json_dumps st a)
  = match a with
    | Add _ _ _ _ _ _ _ => portfolio_of st ++ option_list (added_lot a)
    | Remove selected_index =>
        if decide (0 ≤ selected_index < Z.of_nat (length (portfolio_of st)))
        then delete (Z.to_nat selected_index) (portfolio_of st)
        else portfolio_of st
    | Refresh yf_history => refreshed yf_history <$> portfolio_of st
    | Clear => []
    end.
Proof.
  destruct a as [sym nm ex q bp bd cp|i|market|]; simpl.
  - apply add_to_portfolio_portfolio.
  - apply remove_selected_stock_portfolio.
  - apply refresh_prices_portfolio.
  - apply clear_portfolio_portfolio.
Qed.

(** A property of holdings that a new price cannot break, that holds of the
    stored holdings and of every record added, holds after the run. *)
Lemma run_Forall (P : Holding → Prop) (st : app_state)
    (actions : list action) :
  (∀ h p, P h → P (set_current_price h p)) →
  Forall P (portfolio_of st) →
  Forall (λ a, ∀ h, added_lot a = Some h → P h) actions →
  Forall P (portfolio_of (run json_dumps st actions)).
Proof.
  intros Hprice. revert st.
  induction actions as [|a actions IH]; intros st Hst Hacts; [done|].
  apply Forall_cons_1 in Hacts as [Ha Hacts].
  apply IH; [|done]. rewrite step_portfolio.
  destruct a as [sym nm ex q bp bd cp|i|market|].
  - apply Forall_app. split; [done|].
    destruct (added_lot _) as [h|] eqn:Hh; simpl; [|constructor].
    constructor; [by apply Ha|constructor].
  - case_decide; [by apply Forall_delete|done].
  - apply Forall_fmap. eapply Forall_impl; [done|].
    intros h Hh. simpl. unfold refreshed.
    destruct (price_lookup market (symbol h)); [by apply Hprice|done].
  - constructor.
Qed.

End HandlerFacts.

(** X2. The session and the address stay in step: a step of the page that
    changes the state at all leaves the query parameters holding exactly the
    encoding of the session's portfolio, and nothing else; and from a state
    where they agree, they agree after every sequence of actions. *)
Theorem run_keeps_in_sync
    (json_dumps : list Holding -> string) (st : app_state) :
  (∀ a, step json_dumps st a ≠ st → in_sync json_dumps (step json_dumps st a))
  ∧ (∀ actions, in_sync json_dumps st →
                in_sync json_dumps (run json_dumps st actions)).
Proof.
  split.
  - intros a Hne.
    destruct (step_cases json_dumps st a) as [Heq|(p & st0 & ->)]; [done|].
    apply save_portfolio_in_sync.
  - intros actions. apply run_in_sync.
Qed.

Lemma run_keeps_in_sync_witness :
  in_sync sample_dumps saved_state
  ∧ in_sync sample_dumps
      (run sample_dumps saved_state
           [Remove 0; Refresh sample_history; Clear]).
Proof.
  assert (H : in_sync sample_dumps saved_state)
    by (eexists; split; reflexivity).
  split; [exact H|].
  exact (proj2 (run_keeps_in_sync sample_dumps saved_state)
           [Remove 0; Refresh sample_history; Clear] H).
Defined.

(** X3. Whatever the visitor did, the page reopened on its address shows the
    same holdings: after any sequence of actions from a state in step, loading
    in a new session returns the session's portfolio, provided the JSON
    library decodes what it encoded for that portfolio. *)
Theorem reopen_after_run
    (json_dumps : list Holding -> string)
    (json_loads : string -> option (list Holding))
    (st : app_state) (actions : list action) :
  in_sync json_dumps st →
  let final := run json_dumps st actions in
  json_loads (json_dumps (portfolio_of final)) = Some (portfolio_of final) →
  load_portfolio json_loads (reopen final) = portfolio_of final.
Proof.
  intros Hs final Hrt.
  destruct (run_in_sync json_dumps st actions Hs) as (p & Hp & Hq).
  fold final in Hp, Hq. unfold portfolio_of in *. rewrite Hp in *. simpl in *.
  unfold load_portfolio, reopen. simpl. rewrite Hq, lookup_singleton_eq.
  simpl. by rewrite Hrt.
Qed.

Lemma reopen_after_run_witness :
  in_sync sample_dumps saved_state
  ∧ load_portfolio sample_loads
      (reopen (run sample_dumps saved_state
                   [Add "B" "Beta Ltd." "NSE" 3 20.5%float "2023-02-01"
                        21%float]))
    = [holding_A 100%float; holding_B].
Proof.
  assert (H : in_sync sample_dumps saved_state)
    by (eexists; split; reflexivity).
  split; [exact H|].
  exact (reopen_after_run sample_dumps sample_loads saved_state
           [Add "B" "Beta Ltd." "NSE" 3 20.5%float "2023-02-01" 21%float]
           H eq_refl).
Defined.

(** ** What the store can hold *)

Lemma same_lot_refl (h : Holding) : same_lot h h.
Proof. by destruct h. Qed.

Lemma same_lot_set_current_price (h h0 : Holding) (p : float) :
  same_lot h h0 → same_lot (set_current_price h p) h0.
Proof. unfold same_lot. by destruct h. Qed.

(** X4. The store never invents or edits a lot: after any sequence of
    actions, every holding of the portfolio is, up to its current price, a
    holding the session started with or a record a successful add was given. *)
Theorem run_only_known_lots
    (json_dumps : list Holding -> string) (st : app_state)
    (actions : list action) (h : Holding) :
  h ∈ portfolio_of (run json_dumps st actions) →
  ∃ h0, same_lot h h0
        ∧ (h0 ∈ portfolio_of st
           ∨ ∃ a, a ∈ actions ∧ added_lot a = Some h0).
Proof.
  revert h. apply Forall_forall.
  apply (run_Forall json_dumps
           (λ h, ∃ h0, same_lot h h0
                       ∧ (h0 ∈ portfolio_of st
                          ∨ ∃ a, a ∈ actions ∧ added_lot a = Some h0))).
  - intros h p (h0 & Hl & Hsrc). exists h0.
    split; [by apply same_lot_set_current_price|done].
  - apply Forall_forall. intros h Hin. exists h.
    split; [apply same_lot_refl|by left].
  - apply Forall_forall. intros a Hin h Ha. exists h.
    split; [apply same_lot_refl|]. right. by exists a.
Qed.

Lemma run_only_known_lots_witness :
  set_current_price holding_B 21%float
    ∈ portfolio_of (run sample_dumps sample_state
                        [Remove 0; Refresh sample_history])
  ∧ ∃ h0, same_lot (set_current_price holding_B 21%float) h0
          ∧ (h0 ∈ portfolio_of sample_state
             ∨ ∃ a, a ∈ [Remove 0; Refresh sample_history]
                    ∧ added_lot a = Some h0).
Proof.
  assert (H : set_current_price holding_B 21%float
                ∈ portfolio_of (run sample_dumps sample_state
                                    [Remove 0; Refresh sample_history]))
    by (vm_compute; apply list_elem_of_here).
  split; [exact H|].
  exact (run_only_known_lots sample_dumps sample_state
           [Remove 0; Refresh sample_history] _ H).
Defined.

(** X5. No holding without a symbol: if every holding of the session has a
    non-empty symbol, so has every holding after any sequence of actions,
    whatever records the adds were given. *)
Theorem run_symbols_not_empty
    (json_dumps : list Holding -> string) (st : app_state)
    (actions : list action) :
  Forall (λ h, symbol h ≠ ""%string) (portfolio_of st) →
  Forall (λ h, symbol h ≠ ""%string)
         (portfolio_of (run json_dumps st actions)).
Proof.
  intros Hst. apply run_Forall; [by intros [] p|done|].
  apply Forall_forall. intros a _ h Ha.
  destruct a; simpl in Ha; try done.
  case_decide; [done|]. by injection Ha as <-.
Qed.

Lemma run_symbols_not_empty_witness :
  Forall (λ h, symbol h ≠ ""%string) (portfolio_of sample_state)
  ∧ Forall (λ h, symbol h ≠ ""%string)
           (portfolio_of
              (run sample_dumps sample_state
                   [Add "" "Nameless" "NMS" 1 1%float "2023-03-01" 1%float;
                    Add "C" "Gamma" "NMS" 4 5%float "2023-03-01" 5%float])).
Proof.
  assert (H : Forall (λ h, symbol h ≠ ""%string) (portfolio_of sample_state))
    by (repeat constructor; discriminate).
  split; [exact H|].
  exact (run_symbols_not_empty sample_dumps sample_state _ H).
Defined.

(** ** How the handlers compose *)

(** X6. Removing the position a successful add has just filled restores the
    holdings as they were. *)
Theorem add_then_remove_last
    (json_dumps : list Holding -> string)
    (ticker_symbol name_ exchange_ : string) (quantity_ : Z)
    (buy_price_ : float) (buy_date_ : string) (current_price_ : float)
    (st : app_state) :
  ticker_symbol ≠ ""%string →
  let added :=
    (add_to_portfolio json_dumps ticker_symbol name_ exchange_ quantity_
                      buy_price_ buy_date_ current_price_ st).1 in
  length (portfolio_of added) = S (length (portfolio_of st))
  ∧ portfolio_of
      (remove_selected_stock json_dumps
         (Z.of_nat (length (portfolio_of st))) added).1
    = portfolio_of st.
Proof.
  intros Hs added.
  assert (Ha : portfolio_of added
               = portfolio_of st
                 ++ [mkHolding ticker_symbol name_ quantity_ buy_price_
                               buy_date_ current_price_ exchange_]).
  { subst added. rewrite add_to_portfolio_portfolio. simpl.
    by rewrite decide_False. }
  split; [rewrite Ha, length_app; simpl; lia|].
  rewrite remove_selected_stock_portfolio, Ha, length_app.
  rewrite decide_True by (simpl; lia).
  rewrite Nat2Z.id, delete_middle. apply app_nil_r.
Qed.

Lemma add_then_remove_last_witness :
  "C"%string ≠ ""%string
  ∧ portfolio_of
      (remove_selected_stock sample_dumps 2
         (add_to_portfolio sample_dumps "C" "Gamma" "NMS" 4 5%float
                           "2023-03-01" 5%float sample_state).1).1
    = portfolio_of sample_state.
Proof.
  assert (H : "C"%string ≠ ""%string) by discriminate.
  split; [exact H|].
  exact (proj2 (add_then_remove_last sample_dumps "C" "Gamma" "NMS" 4 5%float
                  "2023-03-01" 5%float sample_state H)).
Defined.

Lemma refreshed_idemp (yf_history : string -> option (list float))
    (h : Holding) :
  refreshed yf_history (refreshed yf_history h) = refreshed yf_history h.
Proof.
  unfold refreshed.
  destruct (price_lookup yf_history (symbol h)) as [p|] eqn:Hl; simpl.
  - by rewrite Hl.
  - by rewrite Hl.
Qed.

Lemma refreshed_same_lot (yf_history : string -> option (list float))
    (h : Holding) :
  same_lot (refreshed yf_history h) h.
Proof.
  unfold refreshed.
  destruct (price_lookup yf_history (symbol h)).
  - apply same_lot_set_current_price, same_lot_refl.
  - apply same_lot_refl.
Qed.

Lemma refresh_prices_eq (json_dumps : list Holding -> string)
    (yf_history : string -> option (list float)) (st : app_state) :
  refresh_prices json_dumps yf_history st
  = if decide (portfolio_of st = []) then st
    else save_portfolio json_dumps
           (refreshed yf_history <$> portfolio_of st) st.
Proof.
  unfold refresh_prices.
  destruct (portfolio_of st) as [|h l] eqn:Hp; [done|].
  rewrite decide_False by done. by rewrite foldl_refresh_step.
Qed.

(** X7. Refreshing twice from the same market is refreshing once: the second
    refresh leaves the whole state, session and query parameters, as the first
    one made it. *)
Theorem refresh_prices_idempotent
    (json_dumps : list Holding -> string)
    (yf_history : string -> option (list float)) (st : app_state) :
  refresh_prices json_dumps yf_history
    (refresh_prices json_dumps yf_history st)
  = refresh_prices json_dumps yf_history st.
Proof.
  rewrite (refresh_prices_eq json_dumps yf_history st).
  case_decide as Hp.
  - rewrite refresh_prices_eq. by rewrite decide_True.
  - rewrite refresh_prices_eq. unfold portfolio_of at 1 2. simpl.
    rewrite decide_False by (by destruct (portfolio_of st)).
    set (new := refreshed yf_history <$> portfolio_of st).
    change (portfolio_of (save_portfolio json_dumps new st)) with new.
    assert (Hnew : refreshed yf_history <$> new = new).
    { subst new. rewrite <- list_fmap_compose. apply list_fmap_ext.
      intros ? x _. apply refreshed_idemp. }
    unfold save_portfolio. by rewrite Hnew.
Qed.

(** X8. A refresh touches prices only: holding by holding the refreshed
    portfolio is the same lot as before (symbol, name, quantity, buy price, buy
    date and exchange unchanged), so the investment column of the table is the
    same before and after. *)
Theorem refresh_prices_same_lots
    (json_dumps : list Holding -> string)
    (yf_history : string -> option (list float)) (st : app_state) :
  let st' := refresh_prices json_dumps yf_history st in
  Forall2 same_lot (portfolio_of st') (portfolio_of st)
  ∧ investment <$> compute_rows (portfolio_of st')
    = investment <$> compute_rows (portfolio_of st).
Proof.
  intros st'. subst st'. rewrite refresh_prices_portfolio. split.
  - apply Forall2_fmap_l, Forall_Forall2_diag, Forall_forall.
    intros h _. apply refreshed_same_lot.
  - rewrite !compute_rows_spec, <- !list_fmap_compose.
    apply list_fmap_ext. intros i h _. simpl.
    unfold refreshed. by destruct (price_lookup yf_history (symbol h)).
Qed.

(** X9. Removing and refreshing commute: removing a position and then
    refreshing gives the same holdings as refreshing and then removing that
    position, for every index, in range or not. *)
Theorem refresh_remove_commute
    (json_dumps : list Holding -> string)
    (yf_history : string -> option (list float))
    (selected_index : Z) (st : app_state) :
  portfolio_of
    (refresh_prices json_dumps yf_history
       (remove_selected_stock json_dumps selected_index st).1)
  = portfolio_of
      (remove_selected_stock json_dumps selected_index
         (refresh_prices json_dumps yf_history st)).1.
Proof.
  rewrite refresh_prices_portfolio, !remove_selected_stock_portfolio.
  rewrite refresh_prices_portfolio, length_fmap.
  case_decide; [|done]. apply list_fmap_delete.
Qed.

(** X10. The table shows fresh prices where there are some. When the
    quantities fit 64 bits the display runs to its end: the session holds the
    refreshed portfolio and the table has one row per holding; the row of a
    holding has the investment quantity * buy_price, and as current value
    quantity times the price just looked up, or times the stored price when
    the lookup failed, the quantity entering as its conversion to binary64,
    which below 2^53 is the integer itself. When a quantity that no binary64
    number can hold follows quantities that fit 64 bits, the display raises
    [OverflowError] before any price is refreshed, and there is no table. *)
Theorem portfolio_display_prices
    (json_dumps : list Holding -> string)
    (yf_history : string -> option (list float))
    (st : app_state) :
  (Forall (λ h, int64 (quantity h)) (portfolio_of st) →
   ∃ rows : list DerivedRow,
     portfolio_display json_dumps yf_history st
     = Built (refresh_prices json_dumps yf_history st, rows)
     ∧ length rows = length (portfolio_of st)
     ∧ ∀ (i : nat) (h : Holding),
         portfolio_of st !! i = Some h →
         ∃ (r : DerivedRow) (q : float),
           rows !! i = Some r
           ∧ q = float_of_int (quantity h)
           ∧ (Z.abs (quantity h) < 2 ^ 53 →
                int_of_float q = Some (quantity h))
           ∧ investment r = (q * buy_price h)%float
           ∧ (∀ p, price_lookup yf_history (symbol h) = Some p →
                   current_value r = (q * p)%float)
           ∧ (price_lookup yf_history (symbol h) = None →
                current_value r = (q * current_price h)%float))
  ∧ (∀ (before after : list Holding) (h : Holding),
       portfolio_of st = before ++ h :: after →
       Forall (λ h, int64 (quantity h)) before →
       beyond_binary64 (quantity h) →
       portfolio_display json_dumps yf_history st = OverflowError).
Proof.
  split.
  - intros Hq.
    exists (spec_derived_row
              <$> (refreshed yf_history <$> portfolio_of st)).
    assert (Hq' : Forall (λ h, int64 (quantity h))
                         (refreshed yf_history <$> portfolio_of st)).
    { apply Forall_fmap. eapply Forall_impl; [exact Hq|].
      intros h Hh. unfold refreshed. simpl.
      by destruct (price_lookup yf_history (symbol h)). }
    split_and!.
    + unfold portfolio_display.
      destruct (portfolio_of st) as [|h0 l] eqn:Hp.
      * unfold refresh_prices. by rewrite Hp.
      * rewrite <- Hp in *. rewrite (pd_DataFrame_int64 _ Hq).
        rewrite refresh_prices_portfolio, (pd_DataFrame_int64 _ Hq').
        unfold outcome_map, frame_rows. simpl. rewrite length_fmap.
        do 2 f_equal.
        apply (compute_rows_spec (refreshed yf_history <$> portfolio_of st)).
    + by rewrite !length_fmap.
    + intros i h Hi.
      exists (spec_derived_row (refreshed yf_history h)),
             (float_of_int (quantity h)).
      rewrite !list_lookup_fmap, Hi. split; [done|]. split; [done|].
      split; [apply int_of_float_float_of_int|].
      unfold refreshed.
      destruct (price_lookup yf_history (symbol h)) as [p|]; simpl.
      * split; [done|]. split; [by intros ? [= <-]|done].
      * split; [done|]. by split.
  - intros before after h Hp Hq Hh. unfold portfolio_display.
    rewrite Hp, pd_DataFrame_beyond by done.
    by destruct before.
Qed.

Lemma portfolio_display_prices_witness :
  Forall (λ h, int64 (quantity h)) (portfolio_of sample_state)
  ∧ portfolio_of sample_state !! 0%nat = Some (holding_A 100%float)
  ∧ price_lookup sample_history "A" = Some 150%float
  ∧ ∃ rows : list DerivedRow,
      portfolio_display sample_dumps sample_history sample_state
      = Built (refresh_prices sample_dumps sample_history sample_state, rows)
      ∧ length rows = 2%nat
      ∧ ∃ r, rows !! 0%nat = Some r
             ∧ investment r = 1000%float
             ∧ current_value r = 1500%float.
Proof.
  assert (Hq : Forall (λ h, int64 (quantity h)) (portfolio_of sample_state))
    by (repeat constructor; by vm_compute).
  split; [exact Hq|]. split; [reflexivity|]. split; [reflexivity|].
  destruct (proj1 (portfolio_display_prices sample_dumps sample_history
                     sample_state) Hq)
    as (rows & Hrows & Hlen & Hrow).
  destruct (Hrow 0%nat (holding_A 100%float) eq_refl)
    as (r & q & Hr & -> & _ & Hinv & Hcv & _).
  exists rows. split; [exact Hrows|]. split; [exact Hlen|].
  exists r. split; [exact Hr|]. split.
  - rewrite Hinv. reflexivity.
  - rewrite (Hcv 150%float eq_refl). reflexivity.
Defined.

(** X11. Clearing empties the store for good: the portfolio is empty, a
    second press and every later refresh leave the state as it is, and when
    there was something to clear the query parameter holds the encoding of the
    empty list. *)
Theorem clear_portfolio_empties
    (json_dumps : list Holding -> string) (st : app_state) :
  let cleared := (clear_portfolio json_dumps st).1 in
  portfolio_of cleared = []
  ∧ clear_portfolio json_dumps cleared = (cleared, [])
  ∧ (∀ yf_history, refresh_prices json_dumps yf_history cleared = cleared)
  ∧ (portfolio_of st ≠ [] →
       cleared = {| ss_portfolio := Some [];
                    query_params :=
                      {[ "portfolio"%string := [json_dumps []] ]} |}).
Proof.
  intros cleared.
  assert (He : portfolio_of cleared = [])
    by apply clear_portfolio_portfolio.
  split; [done|]. split; [|split].
  - unfold clear_portfolio. by rewrite He.
  - intros yf_history. unfold refresh_prices. by rewrite He.
  - intros Hne. subst cleared. unfold clear_portfolio.
    by destruct (portfolio_of st).
Qed.

Lemma clear_portfolio_empties_witness :
  portfolio_of sample_state ≠ []
  ∧ (clear_portfolio sample_dumps sample_state).1
    = {| ss_portfolio := Some [];
         query_params := {[ "portfolio"%string := [sample_dumps []] ]} |}.
Proof.
  assert (H : portfolio_of sample_state ≠ []) by discriminate.
  split; [exact H|].
  exact (proj2 (proj2 (proj2 (clear_portfolio_empties sample_dumps
                                sample_state))) H).
Defined.

(** X12. The success message of a removal names the holding removed: for an
    index in range the handler reports "Removed S from portfolio!" where S is
    the symbol of the holding at that index, and the old portfolio is that
    holding together with the holdings that remain. *)
Theorem remove_selected_stock_reports
    (json_dumps : list Holding -> string)
    (selected_index : Z) (st : app_state) :
  0 ≤ selected_index < Z.of_nat (length (portfolio_of st)) →
  let out := remove_selected_stock json_dumps selected_index st in
  ∃ removed,
    portfolio_of st !! Z.to_nat selected_index = Some removed
    ∧ out.2 = [Success ("Removed " +:+ symbol removed
                          +:+ " from portfolio!")]
    ∧ portfolio_of st ≡ₚ removed :: portfolio_of out.1.
Proof.
  intros Hr out.
  destruct (lookup_lt_is_Some_2 (portfolio_of st) (Z.to_nat selected_index))
    as [removed Hl]; [lia|].
  exists removed. split; [done|]. split.
  - subst out. unfold remove_selected_stock.
    rewrite decide_True by done. by rewrite Hl.
  - subst out. rewrite remove_selected_stock_in_range by done.
    by apply delete_Permutation.
Qed.

Lemma remove_selected_stock_reports_witness :
  0 ≤ 1 < Z.of_nat (length (portfolio_of sample_state))
  ∧ ∃ removed,
      portfolio_of sample_state !! Z.to_nat 1 = Some removed
      ∧ (remove_selected_stock sample_dumps 1 sample_state).2
        = [Success ("Removed " +:+ symbol removed +:+ " from portfolio!")]
      ∧ portfolio_of sample_state
        ≡ₚ removed
           :: portfolio_of
                (remove_selected_stock sample_dumps 1 sample_state).1.
Proof.
  assert (H : 0 ≤ 1 < Z.of_nat (length (portfolio_of sample_state)))
    by (simpl; lia).
  split; [exact H|].
  exact (remove_selected_stock_reports sample_dumps 1 sample_state H).
Defined.

(** ** Python text *)

Lemma str_app_cons (c : ascii) (s t : string) :
  String c s +:+ t = String c (s +:+ t).
Proof. reflexivity. Qed.

Lemma str_app_nil_r (s : string) : s +:+ "" = s.
Proof. induction s as [|c s IH]; [done|]. by rewrite str_app_cons, IH. Qed.

Lemma str_app_assoc (s t u : string) : (s +:+ t) +:+ u = s +:+ t +:+ u.
Proof. induction s as [|c s IH]; [done|]. by rewrite !str_app_cons, IH. Qed.

Lemma occurs_app (c : ascii) (s t : string) :
  occurs c (s +:+ t) = occurs c s || occurs c t.
Proof.
  induction s as [|d s IH]; [done|].
  rewrite str_app_cons. simpl. by destruct (decide (c = d)).
Qed.

Lemma prefix_app (sep rest : string) :
  String.prefix sep (sep +:+ rest) = true.
Proof.
  induction sep as [|c sep IH]; [by destruct rest|].
  rewrite str_app_cons. simpl. by destruct (ascii_dec c c).
Qed.

Lemma split_go_skip (sep cur x rest : string) :
  split_go sep (String.length x) cur (x +:+ rest) = split_go sep 0 cur rest.
Proof. induction x as [|c x IH]; [done|]. by rewrite str_app_cons. Qed.

(** At a separator the piece read so far ends. *)
Lemma split_go_sep (sep cur rest : string) :
  sep ≠ ""%string →
  split_go sep 0 cur (sep +:+ rest) = cur :: split_go sep 0 "" rest.
Proof.
  destruct sep as [|c sep]; [done|]. intros _.
  rewrite str_app_cons. unfold split_go at 1. fold split_go.
  rewrite <- str_app_cons, prefix_app. f_equal.
  replace (String.length (String c sep) - 1)%nat with (String.length sep)
    by (simpl; lia).
  apply split_go_skip.
Qed.

(** A text in which the first character of the separator does not occur is
    read through. *)
Lemma split_go_free0 (d : ascii) (sep' cur a tail : string) :
  occurs d a = false →
  split_go (String d sep') 0 cur (a +:+ tail)
  = split_go (String d sep') 0 (cur +:+ a) tail.
Proof.
  revert cur. induction a as [|x a IH]; intros cur Ho.
  - by rewrite str_app_nil_r.
  - simpl in Ho. destruct (decide (d = x)) as [|Hne]; [done|].
    rewrite str_app_cons. unfold split_go at 1. fold split_go.
    simpl String.prefix. destruct (ascii_dec d x) as [|_]; [done|].
    rewrite IH by done. by rewrite str_app_assoc.
Qed.

(** The same when it is the second character of the separator that does not
    occur, is not the first, and does not start what follows. *)
Lemma split_go_free1 (c0 d : ascii) (sep' cur a tail : string) :
  d ≠ c0 → occurs d a = false → starts_with d tail = false →
  split_go (String c0 (String d sep')) 0 cur (a +:+ tail)
  = split_go (String c0 (String d sep')) 0 (cur +:+ a) tail.
Proof.
  intros Hd. revert cur. induction a as [|x a IH]; intros cur Ho Ht.
  - by rewrite str_app_nil_r.
  - simpl in Ho. destruct (decide (d = x)) as [|Hne]; [done|].
    rewrite str_app_cons. unfold split_go at 1. fold split_go.
    assert (Hp : String.prefix (String c0 (String d sep'))
                   (String x (a +:+ tail)) = false).
    { simpl. destruct (ascii_dec c0 x) as [|_]; [|done].
      destruct a as [|y a].
      - destruct tail as [|z tail]; [done|]. simpl in Ht.
        change ("" +:+ String z tail) with (String z tail). simpl.
        destruct (ascii_dec d z) as [->|]; [|done].
        by rewrite bool_decide_eq_false in Ht.
      - rewrite str_app_cons. simpl in Ho.
        destruct (decide (d = y)); [done|].
        simpl. by destruct (ascii_dec d y). }
    rewrite Hp, IH by done. by rewrite str_app_assoc.
Qed.

Lemma split_cut0 (d : ascii) (sep' a rest : string) :
  occurs d a = false →
  split (String d sep') (a +:+ String d sep' +:+ rest)
  = a :: split (String d sep') rest.
Proof.
  intros Ho. unfold split. rewrite split_go_free0 by done.
  by rewrite split_go_sep.
Qed.

Lemma split_free0 (d : ascii) (sep' a : string) :
  occurs d a = false → split (String d sep') a = [a].
Proof.
  intros Ho. unfold split. rewrite <- (str_app_nil_r a) at 1.
  by rewrite split_go_free0.
Qed.

Lemma split_cut1 (c0 d : ascii) (sep' a rest : string) :
  d ≠ c0 → occurs d a = false →
  split (String c0 (String d sep'))
        (a +:+ String c0 (String d sep') +:+ rest)
  = a :: split (String c0 (String d sep')) rest.
Proof.
  intros Hd Ho. unfold split. rewrite split_go_free1; [|done..|].
  - by rewrite split_go_sep.
  - rewrite str_app_cons. simpl. apply bool_decide_eq_false. congruence.
Qed.

Lemma split_free1 (c0 d : ascii) (sep' a : string) :
  d ≠ c0 → occurs d a = false → split (String c0 (String d sep')) a = [a].
Proof.
  intros Hd Ho. unfold split. rewrite <- (str_app_nil_r a) at 1.
  by rewrite split_go_free1.
Qed.

(** ** The option of "Select a stock:" and what the add handler cuts out *)

Lemma selected_ticker_option_label (r : Recommendation) :
  occurs "|" (rec_symbol r) = false →
  selected_ticker (option_label r) = Some (rec_symbol r).
Proof.
  intros Hs. unfold selected_ticker, option_label.
  by rewrite (split_cut1 " " "|" " ") by done.
Qed.

Lemma selected_name_option_label (r : Recommendation) :
  label_safe r → selected_name (option_label r) = Some (rec_name r).
Proof.
  intros (Hs1 & _ & Hn1 & Hn2 & He1 & _ & _).
  unfold selected_name, option_label.
  rewrite (split_cut1 " " "|" " ") by done.
  rewrite (split_free1 " " "|" " ")
    by (done || (rewrite !occurs_app, Hn1, He1; done)).
  simpl. by rewrite (split_cut1 " " "(" "") by done.
Qed.

Lemma selected_exchange_option_label (r : Recommendation) :
  label_safe r → selected_exchange (option_label r) = Some (rec_exchange r).
Proof.
  intros (_ & Hs2 & _ & Hn2 & _ & He2 & He3).
  unfold selected_exchange, option_label.
  assert (Hl : rec_symbol r +:+ " | " +:+ rec_name r +:+ " ("
                 +:+ rec_exchange r +:+ ")"
               = (rec_symbol r +:+ " | " +:+ rec_name r +:+ " ")
                   +:+ "(" +:+ rec_exchange r +:+ ")")
    by (by rewrite !str_app_assoc).
  rewrite Hl, (split_cut0 "(" "")
    by (rewrite !occurs_app, Hs2, Hn2; done).
  rewrite (split_free0 "(" "") by (rewrite occurs_app, He2; done).
  simpl. f_equal. unfold replace.
  change (rec_exchange r +:+ ")") with (rec_exchange r +:+ ")" +:+ "").
  rewrite (split_cut0 ")" "") by done.
  simpl. by rewrite !str_app_nil_r.
Qed.

(** The cut goes wrong on a name that has a parenthesis of its own. *)
Lemma option_label_parenthesis_in_name :
  let selected := option_label (mkRec "KO" "Coca-Cola Company (The)" "NYQ") in
  selected_name selected = Some "Coca-Cola Company"%string
  ∧ selected_exchange selected = Some "The "%string.
Proof. split; reflexivity. Qed.

(** X13. What the add handler cuts out of a selected option is what the
    option was built from: for a recommendation whose symbol, name and
    exchange have no bar and no opening parenthesis, and whose exchange has no
    closing parenthesis, the three cuts of its option return its symbol, its
    name and its exchange. *)
Theorem option_label_round_trip (r : Recommendation) :
  label_safe r →
  selected_ticker (option_label r) = Some (rec_symbol r)
  ∧ selected_name (option_label r) = Some (rec_name r)
  ∧ selected_exchange (option_label r) = Some (rec_exchange r).
Proof.
  intros Hr. split; [|split].
  - apply selected_ticker_option_label, Hr.
  - by apply selected_name_option_label.
  - by apply selected_exchange_option_label.
Qed.

Lemma option_label_round_trip_witness :
  label_safe (mkRec "RELIANCE.NS" "Reliance Industries Ltd" "NSE")
  ∧ selected_name
      (option_label (mkRec "RELIANCE.NS" "Reliance Industries Ltd" "NSE"))
    = Some "Reliance Industries Ltd"%string.
Proof.
  assert (H : label_safe
                (mkRec "RELIANCE.NS" "Reliance Industries Ltd" "NSE"))
    by (repeat split; reflexivity).
  split; [exact H|].
  exact (proj1 (proj2 (option_label_round_trip _ H))).
Defined.

(** X14. Adding the selected recommendation stores it: when the option of a
    recommendation with a non-empty symbol and fields safe for the option is
    selected, the handler appends a holding with that symbol, name and
    exchange and the given quantity, prices and date. When the recommendation
    has no symbol, the handler reports an error and stores nothing, whatever
    the other fields are. *)
Theorem add_selected_stores
    (json_dumps : list Holding -> string) (r : Recommendation)
    (quantity_ : Z) (buy_price_ : float) (buy_date_ : string)
    (current_price_ : float) (st : app_state) :
  (label_safe r → rec_symbol r ≠ ""%string →
     ∃ out, add_selected json_dumps (option_label r) quantity_ buy_price_
                         buy_date_ current_price_ st = Some out
            ∧ portfolio_of out.1
              = portfolio_of st
                ++ [mkHolding (rec_symbol r) (rec_name r) quantity_
                              buy_price_ buy_date_ current_price_
                              (rec_exchange r)])
  ∧ (rec_symbol r = ""%string →
       add_selected json_dumps (option_label r) quantity_ buy_price_
                    buy_date_ current_price_ st
       = Some (st, [Error "Please select a valid stock"])).
Proof.
  split.
  - intros Hr Hs. unfold add_selected.
    rewrite selected_ticker_option_label by apply Hr.
    rewrite selected_name_option_label, selected_exchange_option_label
      by done.
    simpl.
    rewrite decide_False by done. eexists. split; [done|].
    rewrite add_to_portfolio_portfolio. simpl. by rewrite decide_False.
  - intros Hs. unfold add_selected.
    rewrite selected_ticker_option_label by (by rewrite Hs).
    simpl. by rewrite decide_True.
Qed.

Lemma add_selected_stores_witness :
  (label_safe (mkRec "AAPL" "Apple Inc." "NMS")
   ∧ "AAPL"%string ≠ ""%string
   ∧ ∃ out, add_selected sample_dumps "AAPL | Apple Inc. (NMS)" 2 150%float
                         "2023-04-03" 160%float sample_state = Some out
            ∧ portfolio_of out.1
              = portfolio_of sample_state
                ++ [mkHolding "AAPL" "Apple Inc." 2 150%float "2023-04-03"
                              160%float "NMS"])
  ∧ (""%string = ""%string
     ∧ add_selected sample_dumps " | Apple Inc. (NMS)" 2 150%float
                    "2023-04-03" 160%float sample_state
       = Some (sample_state, [Error "Please select a valid stock"])).
Proof.
  assert (H : label_safe (mkRec "AAPL" "Apple Inc." "NMS"))
    by (repeat split; reflexivity).
  assert (Hne : "AAPL"%string ≠ ""%string) by discriminate.
  split.
  - split; [exact H|]. split; [exact Hne|].
    exact (proj1 (add_selected_stores sample_dumps
                    (mkRec "AAPL" "Apple Inc." "NMS") 2 150%float
                    "2023-04-03" 160%float sample_state) H Hne).
  - split; [reflexivity|].
    exact (proj2 (add_selected_stores sample_dumps
                    (mkRec "" "Apple Inc." "NMS") 2 150%float
                    "2023-04-03" 160%float sample_state) eq_refl).
Defined.

(** ** The option of "Select stock to remove" *)

Lemma occurs_dot_uint (d : Decimal.uint) :
  occurs "." (NilEmpty.string_of_uint d) = false.
Proof. induction d; simpl; done. Qed.

Lemma occurs_dot_str_of_int (z : Z) : occurs "." (str_of_int z) = false.
Proof.
  unfold str_of_int.
  destruct (Z.to_int z) as [d|d]; simpl.
  - destruct d; try apply occurs_dot_uint. done.
  - destruct d; try apply occurs_dot_uint. done.
Qed.

(** [int(str(z)) == z] *)
Lemma int_of_text_str_of_int (z : Z) : int_of_text (str_of_int z) = Some z.
Proof.
  unfold int_of_text, str_of_int. rewrite NilZero.isi.
  - simpl. f_equal. apply DecimalZ.of_to.
  - destruct z as [|p|p]; simpl; try done.
    intros [= Hp]. by apply Unsigned.to_uint_nonnil in Hp.
  - destruct z as [|p|p]; simpl; try done.
    intros [= Hp]. by apply Unsigned.to_uint_nonnil in Hp.
Qed.

Lemma selected_index_of_delete_label (i : nat) (item : Holding) :
  selected_index_of (delete_label i item) = Some (Z.of_nat i).
Proof.
  unfold selected_index_of, delete_label.
  change (". " +:+ ?rest) with ("." +:+ " " +:+ rest).
  rewrite (split_cut0 "." "") by apply occurs_dot_str_of_int.
  simpl. rewrite int_of_text_str_of_int. simpl. f_equal. lia.
Qed.

(** X15. Every option of the remove box leads back to its own holding: the
    index read from the option of position i is i, whatever dots, digits or
    parentheses the symbol and the name contain, and pressing the button with
    that option selected removes exactly position i. *)
Theorem delete_option_removes_its_holding
    (json_dumps : list Holding -> string) (st : app_state)
    (i : nat) (delete_index : string) :
  delete_options (portfolio_of st) !! i = Some delete_index →
  selected_index_of delete_index = Some (Z.of_nat i)
  ∧ ∃ out, remove_selected_option json_dumps delete_index st = Some out
           ∧ portfolio_of out.1 = delete i (portfolio_of st).
Proof.
  unfold delete_options. rewrite list_lookup_imap.
  destruct (portfolio_of st !! i) as [item|] eqn:Hi; [|done].
  intros [= <-].
  split; [apply selected_index_of_delete_label|].
  unfold remove_selected_option.
  rewrite selected_index_of_delete_label. simpl. eexists. split; [done|].
  apply lookup_lt_Some in Hi.
  rewrite remove_selected_stock_in_range by lia. by rewrite Nat2Z.id.
Qed.

Lemma delete_option_removes_its_holding_witness :
  delete_options (portfolio_of sample_state) !! 1%nat
  = Some "2. B - Beta Ltd. (Qty: 3)"%string
  ∧ selected_index_of "2. B - Beta Ltd. (Qty: 3)" = Some 1.
Proof.
  split; [reflexivity|].
  exact (proj1 (delete_option_removes_its_holding sample_dumps sample_state
                  1 "2. B - Beta Ltd. (Qty: 3)" eq_refl)).
Defined.

(** X16. The options of the remove box are pairwise different, even for
    lots with the same symbol, name and quantity: the position in front tells
    them apart. *)
Theorem delete_options_NoDup (portfolio : list Holding) :
  NoDup (delete_options portfolio).
Proof.
  apply NoDup_alt. intros i j label. unfold delete_options.
  rewrite !list_lookup_imap.
  destruct (portfolio !! i) as [x|]; [|done].
  destruct (portfolio !! j) as [y|]; [|done].
  simpl. intros [= <-] [= Hj].
  pose proof (selected_index_of_delete_label i x) as Hx.
  rewrite <- Hj, selected_index_of_delete_label in Hx.
  injection Hx as Hx. lia.
Qed.

(** ** Historical price, for any answer of the provider *)

(** X17. Whatever the provider answers, the historical price is never taken
    from a session after the requested date. If the call raises, nothing is
    returned and the error is shown. Otherwise no message is shown, and the
    price returned is the close of the last session of the answer that is on
    or before the date; nothing is returned exactly when the answer has no
    such session. *)
Theorem get_historical_price_never_later
    (yf_download : string -> Z -> Z -> string + list session)
    (ticker : string) (date : Z) :
  let out := get_historical_price yf_download ticker date in
  match yf_download ticker (date - 7) (date + 1) with
  | inl e => out = (None, [Error ("Price fetch error: " +:+ e)])
  | inr data =>
      out.2 = []
      ∧ match out.1 with
        | Some c =>
            ∃ day before after,
              data = before ++ (day, c) :: after
              ∧ day ≤ date
              ∧ Forall (λ s : session, ¬ s.1 ≤ date) after
        | None => Forall (λ s : session, ¬ s.1 ≤ date) data
        end
  end.
Proof.
  intros out. subst out. unfold get_historical_price.
  destruct (yf_download ticker (date - 7) (date + 1)) as [e|data]; [done|].
  assert (Hgo : ∀ l : list session,
            match last (filter (λ s : session, s.1 ≤ date) l) with
            | Some s =>
                ∃ before after, l = before ++ s :: after ∧ s.1 ≤ date
                  ∧ Forall (λ s : session, ¬ s.1 ≤ date) after
            | None => Forall (λ s : session, ¬ s.1 ≤ date) l
            end).
  { intros l. induction l as [|x l IH] using rev_ind; [by constructor|].
    rewrite filter_app, filter_cons, filter_nil.
    destruct (decide (x.1 ≤ date)) as [Hx|Hx].
    - rewrite last_snoc. exists l, []. by repeat split.
    - rewrite app_nil_r.
      destruct (last (filter _ l)) as [s|].
      + destruct IH as (before & after & -> & Hs & Hafter).
        exists before, (after ++ [x]). rewrite <- app_assoc. simpl.
        split; [done|]. split; [done|].
        apply Forall_app. split; [done|]. by repeat constructor.
      + apply Forall_app. split; [done|]. by repeat constructor. }
  specialize (Hgo data). destruct data as [|s0 data]; [by split|].
  destruct (last (filter _ (s0 :: data))) as [[day c]|]; simpl.
  - split; [done|]. destruct Hgo as (before & after & ? & ? & ?).
    by exists day, before, after.
  - by split.
Qed.

Lemma strictly_chronological_chronological (history : list session) :
  strictly_chronological history → chronological history.
Proof.
  unfold strictly_chronological, chronological.
  induction 1 as [|x l Hl IH Hx]; constructor; [done|].
  eapply Forall_impl; [done|]. intros y Hy. simpl in *. lia.
Qed.

(** With one session a day at most, a day names its session. *)
Lemma strictly_chronological_day (history : list session) (a b : session) :
  strictly_chronological history → a ∈ history → b ∈ history →
  a.1 = b.1 → a = b.
Proof.
  unfold strictly_chronological.
  induction 1 as [|x l Hl IH Hx]; intros Ha Hb Hd.
  - by apply elem_of_nil in Ha.
  - apply elem_of_cons in Ha as [->|Ha];
      apply elem_of_cons in Hb as [->|Hb]; [done| | |by apply IH].
    + eapply Forall_forall in Hx; [|done]. simpl in Hx. lia.
    + eapply Forall_forall in Hx; [|done]. simpl in Hx. lia.
Qed.

(** X18. On a trading day the price is that day's close: for a price history
    with at most one session a day, in order of time, that has a session on
    the requested date, the historical price is the close of that session, and
    no message is shown. *)
Theorem get_historical_price_on_trading_day
    (history : list session) (ticker : string) (date : Z) (c : float) :
  strictly_chronological history →
  (date, c) ∈ history →
  get_historical_price (download_from history) ticker date = (Some c, []).
Proof.
  intros Hs Hin. rewrite get_historical_price_window.
  assert (Hw : (date, c) ∈ filter (λ s : session, date - 7 ≤ s.1 ≤ date)
                              history)
    by (apply list_elem_of_filter; simpl; split; [lia|done]).
  destruct (last (filter (λ s : session, date - 7 ≤ s.1 ≤ date) history))
    as [s|] eqn:Hl.
  - assert (Hsin : s ∈ filter (λ s : session, date - 7 ≤ s.1 ≤ date)
                            history)
      by (by eapply last_Some_elem_of).
    assert (Hrefl : Reflexive (λ a b : session, a.1 ≤ b.1))
      by (intros a; simpl; lia).
    assert (Hle : (date, c).1 ≤ s.1).
    { eapply (StronglySorted_last (λ a b : session, a.1 ≤ b.1));
        [|exact Hl|exact Hw].
      by apply StronglySorted_filter,
               strictly_chronological_chronological. }
    apply list_elem_of_filter in Hsin as [Hsw Hsin]. simpl in Hle.
    assert (Heq : s = (date, c)).
    { apply (strictly_chronological_day history); [done..|]. simpl. lia. }
    by rewrite Heq.
  - apply last_None in Hl. rewrite Hl in Hw. by apply elem_of_nil in Hw.
Qed.

Lemma get_historical_price_on_trading_day_witness :
  strictly_chronological sample_sessions
  ∧ (3, 7%float) ∈ sample_sessions
  ∧ get_historical_price (download_from sample_sessions) "X" 3
    = (Some 7%float, []).
Proof.
  assert (H : strictly_chronological sample_sessions).
  { unfold strictly_chronological, sample_sessions.
    repeat constructor; simpl; lia. }
  assert (Hin : (3, 7%float) ∈ sample_sessions)
    by (apply list_elem_of_further, list_elem_of_here).
  split; [exact H|]. split; [exact Hin|].
  exact (get_historical_price_on_trading_day sample_sessions "X" 3 7%float
           H Hin).
Defined.

(** ** Analytics *)

Lemma unique_go (seen l : list string) :
  NoDup seen →
  let go := foldl (λ seen x, if decide (x ∈ seen) then seen
                             else seen ++ [x]) seen l in
  NoDup go ∧ ∀ x, x ∈ go ↔ x ∈ seen ∨ x ∈ l.
Proof.
  revert seen. induction l as [|y l IH]; intros seen Hnd; simpl.
  - split; [done|]. intros x. rewrite elem_of_nil. tauto.
  - destruct (decide (y ∈ seen)) as [Hy|Hy].
    + destruct (IH seen Hnd) as [Hnd' Hin]. split; [done|].
      intros x. rewrite Hin, elem_of_cons.
      split; [tauto|]. intros [?|[->|?]]; tauto.
    + assert (Hnd1 : NoDup (seen ++ [y])).
      { apply NoDup_app. split; [done|]. split; [|apply NoDup_singleton].
        intros x Hx ->%list_elem_of_singleton. done. }
      destruct (IH _ Hnd1) as [Hnd' Hin]. split; [done|].
      intros x. rewrite Hin, elem_of_app, list_elem_of_singleton, elem_of_cons.
      tauto.
Qed.

Lemma analysis_options_distinct_aux (portfolio : list Holding) :
  NoDup (analysis_options (DataFrame_of portfolio))
  ∧ ∀ sym, sym ∈ analysis_options (DataFrame_of portfolio)
           → ∃ h, h ∈ portfolio ∧ symbol h = sym.
Proof.
  unfold analysis_options, unique. simpl.
  destruct (unique_go [] (symbol <$> portfolio) NoDup_nil_2)
    as [Hnd Hin].
  split; [done|]. intros sym. rewrite Hin, elem_of_nil, list_elem_of_fmap.
  intros [[]|(h & -> & Hh)]. by exists h.
Qed.

(** X19. The analysis box offers every symbol held exactly once: its options
    have no duplicate, and a symbol is an option exactly when some holding has
    it. *)
Theorem analysis_options_distinct (portfolio : list Holding) :
  NoDup (analysis_options (DataFrame_of portfolio))
  ∧ ∀ sym, sym ∈ analysis_options (DataFrame_of portfolio)
           ↔ ∃ h, h ∈ portfolio ∧ symbol h = sym.
Proof.
  unfold analysis_options, unique. simpl.
  destruct (unique_go [] (symbol <$> portfolio) NoDup_nil_2)
    as [Hnd Hin].
  split; [done|]. intros sym. rewrite Hin, elem_of_nil, list_elem_of_fmap.
  split.
  - intros [[]|(h & -> & Hh)]. by exists h.
  - intros (h & Hh & <-). right. by exists h.
Qed.

(** X20. Choosing an offered symbol never fails and finds the first lot of
    that symbol: the row selected is the earliest holding with the symbol, and
    the purchase line is drawn at that holding's buy date, also when the
    symbol was bought several times. *)
Theorem analysis_finds_first_lot (portfolio : list Holding)
    (selected : string) :
  selected ∈ analysis_options (DataFrame_of portfolio) →
  ∃ i h,
    analysis_row (DataFrame_of portfolio) selected = Some i
    ∧ portfolio !! i = Some h
    ∧ symbol h = selected
    ∧ (∀ j h', (j < i)%nat → portfolio !! j = Some h' → symbol h' ≠ selected)
    ∧ analysis_buy_date (DataFrame_of portfolio) selected
      = Some (buy_date h).
Proof.
  intros Hsel.
  apply (proj2 (analysis_options_distinct_aux portfolio)) in Hsel
    as (h0 & Hh0 & Hs0).
  assert (Hfind : is_Some (list_find (λ s, s = selected)
                                     (symbol <$> portfolio))).
  { eapply list_find_elem_of; [|exact Hs0].
    by apply list_elem_of_fmap_2. }
  destruct Hfind as [[i sym] Hfind].
  pose proof Hfind as Hf.
  apply list_find_Some in Hf as (Hi & -> & Hmin).
  rewrite list_lookup_fmap in Hi.
  destruct (portfolio !! i) as [h|] eqn:Hpi; [|done].
  simpl in Hi. injection Hi as Hi.
  exists i, h. unfold analysis_buy_date, analysis_row. simpl.
  rewrite Hfind. simpl. split; [done|]. split; [done|]. split; [done|].
  split.
  - intros j h' Hj Hh' Hsym. apply (Hmin j (symbol h')); [|done|done].
    by rewrite list_lookup_fmap, Hh'.
  - by rewrite list_lookup_fmap, Hpi.
Qed.

Lemma analysis_finds_first_lot_witness :
  "A"%string
    ∈ analysis_options
        (DataFrame_of [holding_B; holding_A 100%float; zero_lot])
  ∧ ∃ i h,
      analysis_row (DataFrame_of [holding_B; holding_A 100%float; zero_lot])
                   "A" = Some i
      ∧ [holding_B; holding_A 100%float; zero_lot] !! i = Some h
      ∧ symbol h = "A"%string.
Proof.
  assert (H : "A"%string
                ∈ analysis_options
                    (DataFrame_of [holding_B; holding_A 100%float;
                                   zero_lot]))
    by (vm_compute; apply list_elem_of_further, list_elem_of_here).
  split; [exact H|].
  destruct (analysis_finds_first_lot
              [holding_B; holding_A 100%float; zero_lot] "A" H)
    as (i & h & Hrow & Hh & Hsym & _).
  exists i, h. split; [exact Hrow|]. split; [exact Hh|exact Hsym].
Defined.

(** ** Search as you type *)

(** X21. The provider is not asked for a query of fewer than 3 characters,
    and not twice in a row for the same query: after a search for a query,
    running the search block again with that query changes nothing and shows
    nothing, whatever the provider answered the first time (an error
    included) and whatever it would answer now. *)
Theorem auto_search_not_repeated
    (yahoo_search yahoo_search' : string -> string + gmap string (list quote))
    (search_query : string) (s : search_state) :
  ((String.length search_query < 3)%nat →
     auto_search yahoo_search search_query s = (s, []))
  ∧ auto_search yahoo_search' search_query
      (auto_search yahoo_search search_query s).1
    = ((auto_search yahoo_search search_query s).1, []).
Proof.
  split.
  - intros Hlen. unfold auto_search. rewrite decide_False; [done|]. lia.
  - unfold auto_search at 2 3.
    destruct (decide (search_query ≠ ""%string
                      ∧ (3 ≤ String.length search_query)%nat
                      ∧ search_query ≠ last_search s)) as [Hg|Hg]; simpl.
    + unfold auto_search. rewrite decide_False; [done|]. simpl. tauto.
    + unfold auto_search. by rewrite decide_False.
Qed.

Lemma auto_search_not_repeated_witness :
  (String.length "ap" < 3)%nat
  ∧ auto_search sample_search "ap" (mkSearch "" []) = (mkSearch "" [], []).
Proof.
  assert (H : (String.length "ap" < 3)%nat) by (simpl; lia).
  split; [exact H|].
  exact (proj1 (auto_search_not_repeated sample_search sample_search "ap"
                  (mkSearch "" [])) H).
Defined.

(** X22. A failed search wipes the previous matches: for a new query of at
    least 3 characters on which the provider call raises, the error is shown,
    the list of recommendations becomes empty and the query is remembered as
    the last one searched. *)
Theorem auto_search_failure
    (yahoo_search : string -> string + gmap string (list quote))
    (search_query e : string) (s : search_state) :
  (3 ≤ String.length search_query)%nat →
  search_query ≠ last_search s →
  yahoo_search search_query = inl e →
  auto_search yahoo_search search_query s
  = ({| last_search := search_query; recommendations := [] |},
     [Error ("Search error: " +:+ e)]).
Proof.
  intros Hlen Hnew He. unfold auto_search, get_ticker_recommendations.
  rewrite decide_True, He; [done|].
  split; [|done]. intros ->. simpl in Hlen. lia.
Qed.

Lemma auto_search_failure_witness :
  (3 ≤ String.length "app")%nat
  ∧ "app"%string ≠ last_search (mkSearch "ap" [mkRec "AAPL" "Apple" "NMS"])
  ∧ failing_search "app" = inl "connection refused"%string
  ∧ auto_search failing_search "app"
      (mkSearch "ap" [mkRec "AAPL" "Apple" "NMS"])
    = (mkSearch "app" [], [Error "Search error: connection refused"]).
Proof.
  assert (H1 : (3 ≤ String.length "app")%nat) by (simpl; lia).
  assert (H2 : "app"%string
               ≠ last_search (mkSearch "ap" [mkRec "AAPL" "Apple" "NMS"]))
    by discriminate.
  split; [exact H1|]. split; [exact H2|]. split; [reflexivity|].
  exact (auto_search_failure failing_search "app" "connection refused"
           (mkSearch "ap" [mkRec "AAPL" "Apple" "NMS"]) H1 H2 eq_refl).
Defined.

(** ** A holding at its buy price *)






(** * The saved text *)

Lemma same_float_eq (x y : float) : same_float x y = true → x = y.
Proof.
  unfold same_float. intros H. apply Prim2SF_inj.
  destruct (Prim2SF x) as [s|s| |s m e], (Prim2SF y) as [s'|s'| |s' m' e'];
    try done; apply bool_decide_eq_true in H.
  - by subst.
  - by subst.
  - by destruct H as (-> & -> & ->).
Qed.

Lemma all_chars_app (P : ascii → bool) (s t : string) :
  all_chars P (s +:+ t) = all_chars P s && all_chars P t.
Proof.
  induction s as [|c s IH]; [done|].
  rewrite str_app_cons. simpl. by rewrite IH, andb_assoc.
Qed.

Lemma str_length_app (s t : string) :
  String.length (s +:+ t) = (String.length s + String.length t)%nat.
Proof.
  induction s as [|c s IH]; [done|].
  rewrite str_app_cons. simpl. by rewrite IH.
Qed.

Lemma span_digits_app (d rest : string) :
  all_chars is_digit d = true → stops is_digit rest →
  span_digits (d +:+ rest) = (d, rest).
Proof.
  intros Hd Hr. induction d as [|c d IH].
  - destruct rest as [|c r]; [done|]. simpl in *. by rewrite Hr.
  - rewrite str_app_cons. simpl in *.
    apply andb_true_iff in Hd as [Hc Hd]. by rewrite Hc, IH.
Qed.

Lemma span_number_app (t rest : string) :
  all_chars is_number_char t = true → stops is_number_char rest →
  span_number (t +:+ rest) = (t, rest).
Proof.
  intros Hd Hr. induction t as [|c d IH].
  - destruct rest as [|c r]; [done|]. simpl in *. by rewrite Hr.
  - rewrite str_app_cons. simpl in *.
    apply andb_true_iff in Hd as [Hc Hd]. by rewrite Hc, IH.
Qed.

Lemma span_digits_spec (s d r : string) :
  span_digits s = (d, r) →
  s = d +:+ r ∧ all_chars is_digit d = true.
Proof.
  revert d r. induction s as [|c s IH]; intros d r; simpl.
  - by intros [= <- <-].
  - destruct (is_digit c) eqn:Hc.
    + destruct (span_digits s) as [d' r'].
      intros [= <- <-]. destruct (IH d' r' eq_refl) as [-> Hd].
      rewrite str_app_cons. simpl. by rewrite Hc, Hd.
    + by intros [= <- <-].
Qed.

Lemma is_digit_number_char (c : ascii) :
  is_digit c = true → is_number_char c = true.
Proof. unfold is_number_char. by intros ->. Qed.

Lemma all_chars_impl (P Q : ascii → bool) (s : string) :
  (∀ c, P c = true → Q c = true) →
  all_chars P s = true → all_chars Q s = true.
Proof.
  intros HPQ. induction s as [|c s IH]; [done|]. simpl.
  intros [Hc Hs]%andb_true_iff. by rewrite (HPQ c Hc), IH.
Qed.

(** A number token is made of the characters of numbers. *)
Lemma number_of_token_chars (tok : string) (v : scalar) :
  number_of_token tok = Some v →
  all_chars is_number_char tok = true ∧ tok ≠ EmptyString.
Proof.
  unfold number_of_token.
  set (split1 := match tok with
                 | String "-" r => (true, r)
                 | _ => (false, tok)
                 end).
  assert (H1 : tok = (if split1.1 then "-" else EmptyString) +:+ split1.2).
  { subst split1. destruct tok as [|c r]; [done|].
    destruct (decide (c = "-"%char)) as [->|Hc]; [done|].
    by repeat (case_match; try done). }
  destruct split1 as [neg s1]. simpl in H1.
  destruct (span_digits s1) as [ip s2] eqn:Hip.
  apply span_digits_spec in Hip as [-> Hipd].
  set (split2 := match s2 with
                 | String "." r => let '(f, r') := span_digits r in (Some f, r')
                 | _ => (None, s2)
                 end).
  assert (H2 : ∃ fs, s2 = fs +:+ split2.2
                     ∧ all_chars is_number_char fs = true).
  { subst split2. destruct s2 as [|c r]; [by exists EmptyString|].
    destruct (decide (c = "."%char)) as [->|Hc].
    - destruct (span_digits r) as [f r'] eqn:Hf.
      apply span_digits_spec in Hf as [-> Hfd].
      exists (String "." f). split; [done|]. simpl.
      by apply (all_chars_impl is_digit), Hfd; apply is_digit_number_char.
    - exists EmptyString. by repeat (case_match; try done). }
  destruct split2 as [fp s3]. simpl in H2. destruct H2 as (fs & -> & Hfs).
  set (split3 := match s3 with
                 | String c r =>
                     if bool_decide (c = "e"%char ∨ c = "E"%char) then
                       let '(eneg, r1) :=
                         match r with
                         | String "-" r' => (true, r')
                         | String "+" r' => (false, r')
                         | _ => (false, r)
                         end in
                       let '(ed, r2) := span_digits r1 in
                       (Some (eneg, ed), r2)
                     else (None, s3)
                 | EmptyString => (None, s3)
                 end).
  assert (H3 : ∃ es, s3 = es +:+ split3.2
                     ∧ all_chars is_number_char es = true).
  { subst split3. destruct s3 as [|c r]; [by exists EmptyString|].
    case_bool_decide as Hc; [|by exists EmptyString].
    assert (Hcn : is_number_char c = true)
      by (destruct Hc as [-> | ->]; done).
    set (split4 := match r with
                   | String "-" r' => (true, r')
                   | String "+" r' => (false, r')
                   | _ => (false, r)
                   end).
    assert (H4 : ∃ ss, r = ss +:+ split4.2
                       ∧ all_chars is_number_char ss = true).
    { subst split4. destruct r as [|c' r']; [by exists EmptyString|].
      destruct (decide (c' = "-"%char)) as [->|Hm];
        [by exists "-"%string|].
      destruct (decide (c' = "+"%char)) as [->|Hp];
        [by exists "+"%string|].
      exists EmptyString. by repeat (case_match; try done). }
    destruct split4 as [eneg r1]. simpl in H4.
    destruct H4 as (ss & -> & Hss).
    destruct (span_digits r1) as [ed r2] eqn:Hed.
    apply span_digits_spec in Hed as [-> Hedd].
    exists (String c (ss +:+ ed)).
    rewrite str_app_cons, str_app_assoc. split; [done|].
    simpl. rewrite Hcn, all_chars_app, Hss. simpl.
    by apply (all_chars_impl is_digit), Hedd; apply is_digit_number_char. }
  destruct split3 as [ep s4]. simpl in H3. destruct H3 as (es & -> & Hes).
  destruct (bool_decide (ip = EmptyString)) eqn:Hipe; [done|].
  apply bool_decide_eq_false in Hipe.
  destruct (leading_zero ip); [done|].
  destruct (bool_decide (fp = Some EmptyString)); [done|].
  destruct (bool_decide (snd <$> ep = Some EmptyString)); [done|].
  case_bool_decide as Hs4; [|done]. subst s4. simpl. intros _.
  subst tok. split.
  - rewrite !all_chars_app, Hfs, Hes.
    rewrite (all_chars_impl is_digit is_number_char ip
               is_digit_number_char Hipd).
    by destruct neg.
  - destruct neg; [done|]. by destruct ip.
Qed.

(** *** The text of an integer *)

Lemma all_digits_uint (d : Decimal.uint) :
  all_chars is_digit (NilEmpty.string_of_uint d) = true.
Proof. induction d; simpl; done. Qed.

Lemma to_uint_unorm (p : positive) :
  Decimal.unorm (Pos.to_uint p) = Pos.to_uint p.
Proof.
  rewrite <- (DecimalPos.Unsigned.to_of (Pos.to_uint p)).
  by rewrite DecimalPos.Unsigned.of_to.
Qed.

(** The decimal digits of a positive number, as [str] writes them. *)
Lemma str_of_int_pos (p : positive) :
  str_of_int (Z.pos p) = NilEmpty.string_of_uint (Pos.to_uint p)
  ∧ str_of_int (Z.neg p) = "-" +:+ NilEmpty.string_of_uint (Pos.to_uint p).
Proof.
  unfold str_of_int. simpl.
  pose proof (Unsigned.to_uint_nonnil p) as Hn.
  by destruct (Pos.to_uint p).
Qed.

Lemma leading_zero_to_uint (p : positive) :
  leading_zero (NilEmpty.string_of_uint (Pos.to_uint p)) = false.
Proof.
  pose proof (to_uint_unorm p) as Hu.
  pose proof (Unsigned.to_uint_nonzero p) as Hz.
  destruct (Pos.to_uint p) as [|u|u|u|u|u|u|u|u|u|u]; try done.
  assert (Hne : u ≠ Decimal.Nil) by (by intros ->).
  rewrite DecimalFacts.unorm_D0 in Hu.
  pose proof (DecimalFacts.nb_digits_unorm u Hne) as Hle.
  rewrite Hu in Hle. simpl in Hle. lia.
Qed.

Lemma digits_value_to_uint (p : positive) :
  digits_value (NilEmpty.string_of_uint (Pos.to_uint p)) = Some (Z.pos p).
Proof.
  unfold digits_value. rewrite NilEmpty.usu. simpl. f_equal.
  change (Z.of_uint (Pos.to_uint p)) with (Z.of_N (Pos.of_uint (Pos.to_uint p))).
  by rewrite DecimalPos.Unsigned.of_to.
Qed.

Lemma number_of_token_str_of_int (z : Z) :
  number_of_token (str_of_int z) = Some (JInt z).
Proof.
  destruct z as [|p|p]; [done| |].
  - rewrite (proj1 (str_of_int_pos p)).
    pose proof (all_digits_uint (Pos.to_uint p)) as Hd.
    pose proof (leading_zero_to_uint p) as Hl.
    pose proof (digits_value_to_uint p) as Hv.
    pose proof (Unsigned.to_uint_nonnil p) as Hn.
    unfold number_of_token.
    destruct (NilEmpty.string_of_uint (Pos.to_uint p)) as [|c r] eqn:E.
    { by destruct (Pos.to_uint p). }
    assert (Hc : c ≠ "-"%char).
    { intros ->. simpl in Hd. done. }
    assert (Hsplit : match String c r with
                     | String "-" r0 => (true, r0)
                     | _ => (false, String c r)
                     end = (false, String c r)).
    { by repeat (case_match; try done). }
    rewrite Hsplit.
    rewrite <- (str_app_nil_r (String c r)) at 1.
    rewrite span_digits_app by done.
    rewrite Hl, Hv. done.
  - rewrite (proj2 (str_of_int_pos p)).
    pose proof (all_digits_uint (Pos.to_uint p)) as Hd.
    pose proof (leading_zero_to_uint p) as Hl.
    pose proof (digits_value_to_uint p) as Hv.
    pose proof (Unsigned.to_uint_nonnil p) as Hn.
    unfold number_of_token.
    change ("-" +:+ ?s) with (String "-" s).
    destruct (NilEmpty.string_of_uint (Pos.to_uint p)) as [|c r] eqn:E.
    { by destruct (Pos.to_uint p). }
    rewrite <- (str_app_nil_r (String c r)) at 1.
    rewrite span_digits_app by done.
    rewrite Hl, Hv. done.
Qed.

(** *** Reading back an exact decimal *)

Lemma iter_pos_Pos_iter {A : Type} (f : A → A) (n : positive) (x : A) :
  SpecFloat.iter_pos f n x = Pos.iter f x n.
Proof.
  revert x. induction n as [n IH|n IH|]; intros x; simpl.
  - by rewrite !IH, <- !Pos.iter_swap.
  - by rewrite !IH.
  - done.
Qed.

Lemma iter_shr_1_shifted (m j : positive) :
  Pos.iter shr_1
    {| shr_m := Z.pos (Pos.iter xO m j); shr_r := false; shr_s := false |} j
  = {| shr_m := Z.pos m; shr_r := false; shr_s := false |}.
Proof.
  induction j as [|j IH] using Pos.peano_ind; [done|].
  rewrite Pos.iter_succ_r. rewrite Pos.iter_succ. simpl. exact IH.
Qed.

(** A binary64 number, written as a mantissa of 1080 fractional bits, rounds
    to itself. *)
Lemma binary_round_aux_exact (s : bool) (m : positive) (e : Z) :
  valid_binary (S754_finite s m e) = true →
  binary_round_aux prec emax s (Z.pos m * 2 ^ (e + 1080)) (- 1080) loc_Exact
  = S754_finite s m e.
Proof.
  unfold valid_binary, bounded, canonical_mantissa.
  intros [Hc Hb]%andb_true_iff. apply Z.eqb_eq in Hc. apply Z.leb_le in Hb.
  assert (He : 3 - emax - prec ≤ e).
  { unfold fexp, emin in Hc. lia. }
  destruct (e + 1080) as [|j|j] eqn:Hj;
    [unfold emax, prec in He; lia| |unfold emax, prec in He; lia].
  rewrite <- iter_xO_value. unfold binary_round_aux.
  assert (H1 : shr_fexp prec emax (Z.pos (Pos.iter xO m j)) (- 1080) loc_Exact
               = ({| shr_m := Z.pos m; shr_r := false; shr_s := false |}, e)).
  { unfold shr_fexp, Zdigits2. rewrite iter_xO_digits.
    replace (fexp prec emax (Z.pos (digits2_pos m + j) + - 1080) - - 1080)
      with (Z.pos j).
    - unfold shr. rewrite iter_pos_Pos_iter. simpl shr_record_of_loc.
      rewrite iter_shr_1_shifted. f_equal. lia.
    - rewrite Pos2Z.inj_add.
      replace (Z.pos (digits2_pos m) + Z.pos j + - 1080)
        with (Z.pos (digits2_pos m) + e) by lia.
      rewrite Hc. lia. }
  rewrite H1. cbn [shr_m loc_of_shr_record round_nearest_even].
  assert (H2 : shr_fexp prec emax (Z.pos m) e loc_Exact
               = ({| shr_m := Z.pos m; shr_r := false; shr_s := false |}, e)).
  { unfold shr_fexp, Zdigits2. rewrite Hc, Z.sub_diag. done. }
  rewrite H2. cbn [shr_m].
  by replace (e <=? emax - prec) with true by (symmetry; by apply Z.leb_le).
Qed.

Lemma float_of_decimal_exact (s : bool) (m : positive) (e : Z) :
  valid_binary (S754_finite s m e) = true →
  float_of_decimal s
    (if decide (0 ≤ e) then Z.pos m * 2 ^ e else Z.pos m * 5 ^ (- e))
    (- Z.max (- e) 0)
  = SF2Prim (S754_finite s m e).
Proof.
  intros Hv. unfold float_of_decimal.
  assert (He : - 1080 ≤ e).
  { unfold valid_binary, bounded, canonical_mantissa in Hv.
    apply andb_true_iff in Hv as [Hc _]. apply Z.eqb_eq in Hc.
    unfold fexp, emin, emax, prec in Hc. lia. }
  assert (HN : (if decide (0 ≤ e) then Z.pos m * 2 ^ e
                else Z.pos m * 5 ^ (- e))
               * 10 ^ Z.max (- Z.max (- e) 0) 0 * 2 ^ 1080
               = Z.pos m * 2 ^ (e + 1080)
                 * 10 ^ Z.max (- - Z.max (- e) 0) 0).
  { case_decide as H0.
    - replace (Z.max (- e) 0) with 0 by lia. simpl Z.max.
      rewrite Z.pow_0_r, !Z.mul_1_r, Z.pow_add_r by lia. lia.
    - replace (Z.max (- e) 0) with (- e) by lia.
      replace (Z.max (- - e) 0) with 0 by lia.
      replace (Z.max (- - - e) 0) with (- e) by lia.
      rewrite Z.pow_0_r, Z.mul_1_r.
      replace (2 ^ 1080) with (2 ^ (e + 1080) * 2 ^ (- e))
        by (rewrite <- Z.pow_add_r by lia; f_equal; lia).
      change 10 with (2 * 5). rewrite Z.pow_mul_l. lia. }
  rewrite HN.
  assert (HM : 10 ^ Z.max (- - Z.max (- e) 0) 0 ≠ 0)
    by (apply Z.pow_nonzero; lia).
  rewrite Z.mod_mul, Z.div_mul by done.
  rewrite decide_True by done.
  by rewrite binary_round_aux_exact.
Qed.

Lemma str_of_int_nonneg (n : Z) :
  0 ≤ n →
  all_chars is_digit (str_of_int n) = true
  ∧ str_of_int n ≠ EmptyString
  ∧ digits_value (str_of_int n) = Some n.
Proof.
  intros Hn. destruct n as [|p|p]; [done| |lia].
  rewrite (proj1 (str_of_int_pos p)).
  split; [apply all_digits_uint|]. split; [|apply digits_value_to_uint].
  pose proof (Unsigned.to_uint_nonnil p). by destruct (Pos.to_uint p).
Qed.

(** The exact text of a binary64 number reads back as the number. *)
Lemma number_of_token_exact_text (s : bool) (m : positive) (e : Z) :
  valid_binary (S754_finite s m e) = true →
  number_of_token (exact_text s m e)
  = Some (JFloat (SF2Prim (S754_finite s m e))).
Proof.
  intros Hv. unfold exact_text.
  set (D := if decide (0 ≤ e) then Z.pos m * 2 ^ e else Z.pos m * 5 ^ (- e)).
  assert (HD : 0 < D).
  { subst D. case_decide; [|]; apply Z.mul_pos_pos; try lia;
      apply Z.pow_pos_nonneg; lia. }
  destruct D as [|d|d] eqn:ED; [lia| |lia].
  rewrite (proj1 (str_of_int_pos d)).
  pose proof (all_digits_uint (Pos.to_uint d)) as Hd.
  pose proof (leading_zero_to_uint d) as Hl.
  pose proof (digits_value_to_uint d) as Hval.
  destruct (str_of_int_nonneg (Z.max (- e) 0)) as (Hkd & Hkn & Hkv); [lia|].
  pose proof (float_of_decimal_exact s m e Hv) as Hx. fold D in Hx.
  rewrite ED in Hx.
  set (ds := NilEmpty.string_of_uint (Pos.to_uint d)) in *.
  set (ks := str_of_int (Z.max (- e) 0)) in *.
  assert (Hds : ∃ c r, ds = String c r ∧ c ≠ "-"%char).
  { subst ds. pose proof (Unsigned.to_uint_nonnil d).
    destruct (NilEmpty.string_of_uint (Pos.to_uint d)) as [|c r] eqn:E;
      [by destruct (Pos.to_uint d)|].
    exists c, r. split; [done|]. intros ->. done. }
  destruct Hds as (c & r & Hds & Hc).
  set (x := SF2Prim (S754_finite s m e)) in *. clearbody x.
  unfold number_of_token.
  assert (Hsplit :
    match (if s then "-" else EmptyString) +:+ ds +:+ "e-" +:+ ks with
    | String "-" r0 => (true, r0)
    | _ => (false, (if s then "-" else EmptyString) +:+ ds +:+ "e-" +:+ ks)
    end = (s, ds +:+ "e-" +:+ ks)).
  { destruct s; [done|]. rewrite Hds.
    change (EmptyString +:+ ?x) with x. rewrite str_app_cons.
    by repeat (case_match; try done). }
  rewrite Hsplit. rewrite span_digits_app by done.
  change ("e-" +:+ ks) with (String "e" (String "-" ks)).
  cbn iota beta. rewrite bool_decide_true by (by left).
  rewrite <- (str_app_nil_r ks) at 1. rewrite span_digits_app by done.
  rewrite Hl. rewrite (bool_decide_false (ds = EmptyString)) by (by rewrite Hds).
  simpl. rewrite bool_decide_false by (by intros [= ?]).
  simpl. rewrite str_app_nil_r, Hval, Hkv. simpl.
  rewrite Z.sub_0_r. by rewrite Hx.
Qed.

(** *** The text of a float *)

(** [float(repr(x)) == x], for a number that is not NaN or an infinity. *)
Lemma number_of_token_float_repr (x : float) :
  match Prim2SF x with
  | S754_nan | S754_infinity _ => True
  | _ => number_of_token (float_repr x) = Some (JFloat x)
  end.
Proof.
  destruct (Prim2SF x) as [s|s| |s m e] eqn:Hx; try done.
  - unfold float_repr. rewrite Hx.
    assert (x = SF2Prim (S754_zero s)) as ->
      by (by rewrite <- Hx, SF2Prim_Prim2SF).
    by destruct s.
  - unfold float_repr. rewrite Hx.
    destruct (list_find _ _) as [[i t]|] eqn:Hfind.
    + apply list_find_Some in Hfind as (_ & Hread & _).
      destruct (number_of_token t) as [[u|z|y]|]; try done.
      by rewrite (same_float_eq x y Hread).
    + pose proof (Prim2SF_valid x) as Hv. rewrite Hx in Hv.
      rewrite number_of_token_exact_text by done.
      by rewrite <- Hx, SF2Prim_Prim2SF.
Qed.

Lemma number_char_not_ws (c : ascii) :
  is_number_char c = true → is_ws c = false.
Proof.
  unfold is_number_char, is_digit, is_ws.
  intros [[H1 H2]%andb_true_iff|H]%orb_true_iff.
  - apply bool_decide_eq_false.
    by intros [->| [->| [->| ->]]].
  - apply bool_decide_eq_true in H. apply bool_decide_eq_false.
    by destruct H as [->| [->| [->| [->| ->]]]]; intros [?| [?| [?| ?]]].
Qed.

Lemma number_char_not_dquote (c : ascii) :
  is_number_char c = true → c ≠ dquote.
Proof. by intros H ->. Qed.

(** A number, read where it stands in a text. *)
Lemma scan_scalar_number (tok rest : string) (v : scalar) :
  number_of_token tok = Some v → stops is_number_char rest →
  skip_ws (tok +:+ rest) = tok +:+ rest
  ∧ scan_scalar (tok +:+ rest) = Some (v, rest).
Proof.
  intros Hv Hrest.
  destruct (number_of_token_chars tok v Hv) as [Hchars Hne].
  destruct tok as [|c tok']; [done|].
  pose proof Hchars as Hc. simpl in Hc. apply andb_true_iff in Hc as [Hc _].
  split.
  - rewrite str_app_cons. simpl. by rewrite (number_char_not_ws c Hc).
  - unfold scan_scalar. rewrite str_app_cons.
    rewrite decide_False by (by apply number_char_not_dquote).
    rewrite <- str_app_cons, span_number_app by done.
    by rewrite Hv.
Qed.

(** *** The text of a string *)

Lemma scan_string_escape_char (c : ascii) (tail : string) :
  scan_string (escape_char c +:+ tail)
  = match scan_string tail with
    | Some (t, rest) => Some (String c t, rest)
    | None => None
    end.
Proof. by destruct c as [[] [] [] [] [] [] [] []]. Qed.

Lemma scan_string_escape (s rest : string) :
  scan_string (escape s +:+ String dquote rest) = Some (s, rest).
Proof.
  induction s as [|c s IH]; [done|].
  simpl escape. rewrite str_app_assoc, scan_string_escape_char.
  by rewrite IH.
Qed.

Lemma scan_scalar_text (v : scalar) (rest : string) :
  stops is_number_char rest →
  skip_ws (scalar_text v +:+ rest) = scalar_text v +:+ rest
  ∧ scan_scalar (scalar_text v +:+ rest) = Some (v, rest).
Proof.
  intros Hrest. destruct v as [s|z|x]; simpl scalar_text.
  - split; [done|]. unfold json_string, scan_scalar.
    rewrite str_app_cons, decide_True by done.
    by rewrite str_app_assoc, str_app_cons, scan_string_escape.
  - apply scan_scalar_number; [apply number_of_token_str_of_int|done].
  - unfold float_text.
    pose proof (number_of_token_float_repr x) as Hx.
    destruct (Prim2SF x) as [s|s| |s m e] eqn:E.
    + by apply scan_scalar_number.
    + assert (x = SF2Prim (S754_infinity s)) as ->
        by (by rewrite <- E, SF2Prim_Prim2SF).
      by destruct s.
    + assert (x = SF2Prim S754_nan) as ->
        by (by rewrite <- E, SF2Prim_Prim2SF).
      done.
    + by apply scan_scalar_number.
Qed.

(** *** Objects and arrays *)

Lemma scan_members_space (fuel : nat) (s : string) :
  scan_members fuel (String " " s) = scan_members fuel s.
Proof. by destruct fuel. Qed.

Lemma scan_elements_space (fuel : nat) (s : string) :
  scan_elements fuel (String " " s) = scan_elements fuel s.
Proof. by destruct fuel. Qed.

Lemma concat_cons2 (sep x y : string) (l : list string) :
  String.concat sep (x :: y :: l) = x +:+ sep +:+ String.concat sep (y :: l).
Proof. done. Qed.

(** The members of a dictionary, read back from their text. *)
Lemma scan_members_text (ms : list (string * scalar)) (fuel : nat)
    (rest : string) :
  ms ≠ [] → (length ms ≤ fuel)%nat →
  scan_members fuel
    (String.concat ", " (member_text <$> ms) +:+ String "}" rest)
  = Some (ms, rest).
Proof.
  revert fuel. induction ms as [|[key v] ms IH]; intros fuel Hne Hfuel;
    [done|].
  destruct fuel as [|fuel]; [simpl in Hfuel; lia|].
  assert (Hstep : ∀ tail : string,
    stops is_number_char tail →
    scan_members (S fuel) (member_text (key, v) +:+ tail)
    = match skip_ws tail with
      | String "," s4 =>
          match scan_members fuel s4 with
          | Some (ms', rest') => Some ((key, v) :: ms', rest')
          | None => None
          end
      | String "}" s4 => Some ([(key, v)], s4)
      | _ => None
      end).
  { intros tail Htail. unfold member_text, json_string. simpl fst. simpl snd.
    rewrite !str_app_assoc, str_app_cons. cbn [scan_members skip_ws].
    change (is_ws dquote) with false. cbn iota.
    rewrite decide_True by done.
    rewrite str_app_assoc, str_app_cons, scan_string_escape.
    change (EmptyString +:+ ?x) with x.
    change (": " +:+ ?x) with (String ":" (String " " x)).
    cbn [skip_ws]. change (is_ws ":") with false. cbn iota.
    change (skip_ws (String " " ?x)) with (skip_ws x).
    destruct (scan_scalar_text v tail Htail) as [-> ->]. done. }
  destruct ms as [|m' ms].
  - simpl fmap. simpl String.concat. by rewrite Hstep.
  - rewrite fmap_cons, fmap_cons, concat_cons2, <- fmap_cons.
    rewrite !str_app_assoc, Hstep by done.
    change (", " +:+ ?x) with (String "," (String " " x)).
    cbn [skip_ws]. change (is_ws ",") with false. cbn iota.
    rewrite scan_members_space, IH; [done|done|simpl in *; lia].
Qed.

Lemma member_text_length (ms : list (string * scalar)) :
  (length ms ≤ String.length (String.concat ", " (member_text <$> ms)))%nat.
Proof.
  induction ms as [|m ms IH]; [done|].
  destruct ms as [|m' ms].
  - simpl. unfold member_text, json_string. rewrite str_app_cons. simpl. lia.
  - rewrite fmap_cons, fmap_cons, concat_cons2, <- fmap_cons.
    unfold member_text at 1, json_string.
    rewrite str_app_cons. simpl String.length.
    rewrite !str_length_app. simpl in *. lia.
Qed.

Lemma scan_object_text (ms : list (string * scalar)) (rest : string) :
  ms ≠ [] → scan_object (object_text ms +:+ rest) = Some (ms, rest).
Proof.
  intros Hne. unfold object_text, scan_object.
  rewrite !str_app_assoc. change ("{" +:+ ?x) with (String "{" x).
  cbn [skip_ws]. change (is_ws "{") with false. cbn iota.
  change ("}" +:+ rest) with (String "}" rest).
  assert (Hhead : ∃ c r,
    String.concat ", " (member_text <$> ms) +:+ String "}" rest = String c r
    ∧ c = dquote).
  { destruct ms as [|m ms]; [done|].
    destruct ms as [|m' ms].
    - simpl. unfold member_text, json_string. rewrite !str_app_cons. eauto.
    - rewrite fmap_cons, fmap_cons, concat_cons2.
      unfold member_text at 1, json_string. rewrite !str_app_cons. eauto. }
  destruct Hhead as (c & r & Hhead & ->).
  pose proof (scan_members_text ms
                (String.length
                   (String.concat ", " (member_text <$> ms)
                    +:+ String "}" rest)) rest Hne) as Hscan.
  rewrite Hhead in *. cbn [skip_ws]. change (is_ws dquote) with false.
  cbn iota. apply Hscan. rewrite <- Hhead, str_length_app.
  pose proof (member_text_length ms). lia.
Qed.

Lemma holding_of_members_of (h : Holding) :
  holding_of_members (members_of h) = Some h.
Proof. by destruct h. Qed.

(** The holdings of an array, read back from their text. *)
Lemma scan_elements_text (portfolio : list Holding) (fuel : nat)
    (rest : string) :
  portfolio ≠ [] → (length portfolio ≤ fuel)%nat →
  scan_elements fuel
    (String.concat ", " ((object_text ∘ members_of) <$> portfolio)
     +:+ String "]" rest)
  = Some (portfolio, rest).
Proof.
  revert fuel. induction portfolio as [|h portfolio IH];
    intros fuel Hne Hfuel; [done|].
  destruct fuel as [|fuel]; [simpl in Hfuel; lia|].
  assert (Hstep : ∀ tail : string,
    scan_elements (S fuel) (object_text (members_of h) +:+ tail)
    = match skip_ws tail with
      | String "," s2 =>
          match scan_elements fuel s2 with
          | Some (hs, rest') => Some (h :: hs, rest')
          | None => None
          end
      | String "]" s2 => Some ([h], s2)
      | _ => None
      end).
  { intros tail. cbn [scan_elements].
    rewrite scan_object_text by done.
    by rewrite holding_of_members_of. }
  destruct portfolio as [|h' portfolio].
  - simpl fmap. simpl String.concat. by rewrite Hstep.
  - rewrite fmap_cons, fmap_cons, concat_cons2, <- fmap_cons.
    simpl compose at 1.
    rewrite !str_app_assoc, Hstep.
    change (", " +:+ ?x) with (String "," (String " " x)).
    cbn [skip_ws]. change (is_ws ",") with false. cbn iota.
    rewrite scan_elements_space, IH; [done|done|simpl in *; lia].
Qed.

Lemma object_text_length (portfolio : list Holding) :
  (length portfolio
   ≤ String.length
       (String.concat ", " ((object_text ∘ members_of) <$> portfolio)))%nat.
Proof.
  induction portfolio as [|h portfolio IH]; [done|].
  destruct portfolio as [|h' portfolio].
  - simpl. unfold object_text. rewrite str_app_cons. simpl. lia.
  - rewrite fmap_cons, fmap_cons, concat_cons2, <- fmap_cons.
    simpl compose at 1. unfold object_text at 1.
    rewrite str_app_cons. simpl String.length.
    rewrite !str_length_app. simpl in *. lia.
Qed.

(** [json.loads(json.dumps(portfolio)) == portfolio] *)
Lemma loads_dumps (portfolio : list Holding) :
  loads (dumps portfolio) = Some portfolio.
Proof.
  unfold loads, dumps. change ("[" +:+ ?x) with (String "[" x).
  cbn [skip_ws]. change (is_ws "[") with false. cbn iota.
  destruct portfolio as [|h portfolio]; [done|].
  change ("]"%string) with (String "]" EmptyString).
  assert (Hhead : ∃ r,
    String.concat ", " ((object_text ∘ members_of) <$> h :: portfolio)
    +:+ String "]" EmptyString = String "{" r).
  { destruct portfolio as [|h' portfolio].
    - simpl. unfold object_text. rewrite !str_app_cons. eauto.
    - rewrite fmap_cons, fmap_cons, concat_cons2.
      simpl compose at 1. unfold object_text at 1.
      rewrite !str_app_cons. eauto. }
  destruct Hhead as (r & Hhead).
  pose proof (scan_elements_text (h :: portfolio)
                (String.length
                   (String.concat ", "
                      ((object_text ∘ members_of) <$> h :: portfolio)
                    +:+ String "]" EmptyString))
                EmptyString) as Hscan.
  rewrite Hhead in *. cbn [skip_ws]. change (is_ws "{") with false.
  cbn iota. rewrite Hscan; [done|done|].
  rewrite <- Hhead, str_length_app.
  pose proof (object_text_length (h :: portfolio)). lia.
Qed.

(** The text of some values, and the text of a portfolio with its double
    quotes shown as single ones. *)
Lemma dumps_examples :
  float_text 100 = "100.0"%string
  ∧ float_text 20.5 = "20.5"%string
  ∧ float_text 0x1.999999999999ap-4 = "0.1"%string
  ∧ float_text 0x1.4f8b588e368f1p-17 = "1e-05"%string
  ∧ float_text 0x1.1c37937e08p+53 = "1e+16"%string
  ∧ float_text (0 / 0) = "NaN"%string
  ∧ scalar_text (JInt (- 12)) = "-12"%string
  ∧ escape "a\b" = "a\\b"%string
  ∧ dumps [] = "[]"%string
  ∧ replace (String dquote EmptyString) "'" (dumps [holding_B])
    = ("[{'symbol': 'B', 'name': 'Beta Ltd.', 'quantity': 3, "
       +:+ "'buy_price': 20.5, 'buy_date': '2023-02-01', "
       +:+ "'current_price': 21.0, 'exchange': 'NSE'}]")%string.
Proof. by vm_compute. Qed.

(** C9. Saving a holdings sequence and loading it again returns the same
    sequence, whatever the sequence: the text [json.dumps] writes for it reads
    back with [json.loads] as the sequence itself, every text, quantity and
    price the same (a price that is NaN comes back as NaN); so it is loaded
    unchanged in the same session, and in a session reopened on the saved
    query parameters, which hold that text and nothing else. *)
Theorem save_load_round_trip (portfolio : list Holding) (st : app_state) :
  let saved := save_portfolio dumps portfolio st in
  loads (dumps portfolio) = Some portfolio
  ∧ query_params saved = {[ "portfolio"%string := [dumps portfolio] ]}
  ∧ load_portfolio loads saved = portfolio
  ∧ load_portfolio loads (reopen saved) = portfolio
  ∧ ss_portfolio (init_session loads (reopen saved)) = Some portfolio.
Proof.
  intros saved.
  assert (Hre : load_portfolio loads (reopen saved) = portfolio).
  { unfold load_portfolio, reopen, saved, save_portfolio. simpl.
    rewrite lookup_singleton_eq. simpl. by rewrite loads_dumps. }
  split; [apply loads_dumps|]. split; [done|]. split; [done|].
  split; [done|]. unfold init_session. simpl. by rewrite Hre.
Qed.

(** X24. The address is a bookmark of the portfolio: from a state where
    session and address agree, after any sequence of add, remove, refresh and
    clear actions, a new session opened on the address the page then has
    starts with exactly the holdings the page showed, whatever texts and
    numbers they hold. *)
Theorem reopen_restores_portfolio (st : app_state) (actions : list action) :
  in_sync dumps st →
  let final := run dumps st actions in
  portfolio_of (init_session loads (reopen final)) = portfolio_of final.
Proof.
  intros Hs final.
  destruct (run_in_sync dumps st actions Hs) as (p & Hp & Hq).
  fold final in Hp, Hq.
  unfold init_session, load_portfolio, reopen, portfolio_of. simpl.
  rewrite Hq, Hp, lookup_singleton_eq. simpl. by rewrite loads_dumps.
Qed.

Lemma reopen_restores_portfolio_witness :
  in_sync dumps (save_portfolio dumps [holding_A 100%float] sample_state)
  ∧ portfolio_of
      (init_session loads
         (reopen (run dumps
                      (save_portfolio dumps [holding_A 100%float]
                                      sample_state)
                      [Add "B" "Beta Ltd." "NSE" 3 20.5%float "2023-02-01"
                           21%float;
                       Refresh sample_history])))
    = [holding_A 150%float; holding_B].
Proof.
  assert (H : in_sync dumps
                (save_portfolio dumps [holding_A 100%float] sample_state))
    by (eexists; split; reflexivity).
  split; [exact H|].
  exact (reopen_restores_portfolio
           (save_portfolio dumps [holding_A 100%float] sample_state)
           [Add "B" "Beta Ltd." "NSE" 3 20.5%float "2023-02-01" 21%float;
            Refresh sample_history]
           H).
Defined.
